(** * Upload validation and progress feedback of the mail manager front end

    A shallow embedding of the client-side JavaScript of the repository.
    Two revisions of the script are present in the sources:

    - [static/js/main.js], the "Enhanced Main JavaScript" (module [Enhanced]);
    - an older revision of the same script (module [Basic]).

    The DOM is modelled by explicit state: the file input, the elements the
    handlers look up by id, the auto notifications attached to the document
    and the queue of pending [setTimeout] callbacks. *)

From Stdlib Require Import String Ascii List Bool Arith ZArith NArith QArith Qround Lia.
From Stdlib Require Import DecimalString.
From Stdlib Require DecimalPos DecimalN.
Import ListNotations.
Close Scope Q_scope.
Open Scope string_scope.
Open Scope nat_scope.

(** ** Strings *)

(** Building blocks of the markup: the double quote and the line feed. *)
Definition dq : string := String "034"%char EmptyString.
Definition nl : string := String "010"%char EmptyString.

(** [c.toLowerCase()] on the ASCII range.  File names are modelled as strings
    of 8-bit characters; only the letters A-Z have a lower-case form here. *)
Definition lower_ascii (c : ascii) : ascii :=
  let n := nat_of_ascii c in
  if (65 <=? n)%nat && (n <=? 90)%nat then ascii_of_nat (n + 32) else c.

Fixpoint toLowerCase (s : string) : string :=
  match s with
  | EmptyString => EmptyString
  | String c r => String (lower_ascii c) (toLowerCase r)
  end.

(** [s.endsWith(suffix)]: the last [suffix.length] characters of [s] are
    compared with [suffix]; a suffix longer than [s] never matches. *)
Definition endsWith (s suffix : string) : bool :=
  let ls := String.length s in
  let lf := String.length suffix in
  if (lf <=? ls)%nat then String.eqb (substring (ls - lf) lf s) suffix else false.

(** [s.includes(sub)]. *)
Definition includes (s sub : string) : bool :=
  match String.index 0 sub s with
  | Some _ => true
  | None => false
  end.

(** White space, as [trim] removes it and [parseInt] skips it, among the
    8-bit characters: tab, line feed, vertical tab, form feed, carriage
    return, space and the no-break space (code 160). *)
Definition is_space (c : ascii) : bool :=
  let n := nat_of_ascii c in
  ((9 <=? n)%nat && (n <=? 13)%nat) || (n =? 32)%nat || (n =? 160)%nat.

Fixpoint trimStart (s : string) : string :=
  match s with
  | EmptyString => EmptyString
  | String c r => if is_space c then trimStart r else s
  end.

Fixpoint string_rev (s : string) : string :=
  match s with
  | EmptyString => EmptyString
  | String c r => string_rev r ++ String c EmptyString
  end.

Definition trim (s : string) : string :=
  string_rev (trimStart (string_rev (trimStart s))).

(** [s.lastIndexOf(c)] for a single character; [None] stands for -1. *)
Fixpoint lastIndexOf (c : ascii) (s : string) : option nat :=
  match s with
  | EmptyString => None
  | String a r =>
      match lastIndexOf c r with
      | Some i => Some (S i)
      | None => if Ascii.eqb a c then Some 0 else None
      end
  end.

(** ** Files and the file input *)

(** A [File] as the handlers see it: [file.name] and [file.size] (bytes). *)
Record File : Type := mkFile { name : string; size : N }.

(** [file.size / 1024 / 1024].  Dividing a double by a power of two is exact,
    and a size below 2^53 is an exact double, so the quotient is the exact
    rational. *)
Definition fileSizeMB (f : File) : Q :=
  (inject_Z (Z.of_N (size f)) / 1024 / 1024)%Q.

(** [x > limit] on numbers. *)
Definition Qgtb (x limit : Q) : bool := negb (Qle_bool x limit).

(** [n.toString()] for a natural number. *)
Definition decimal (n : N) : string := NilZero.string_of_uint (N.to_uint n).

(** [x.toFixed(2)] for [x >= 0]: the integer [n] closest to [100 * x], the
    larger one on a tie, printed with two decimals. *)
Definition toFixed2 (x : Q) : string :=
  let n := Z.to_N (Qfloor (x * 100 + (1 # 2))%Q) in
  let frac := (n mod 100)%N in
  decimal (n / 100) ++ "." ++ (if (frac <? 10)%N then "0" else "") ++ decimal frac.

(** The file input [#csvFile].  Its [value] is derived from the selection, and
    assigning the empty string to [value] empties the selection. *)
Record FileInput : Type := mkInput { files : list File }.

Definition value (i : FileInput) : string :=
  match files i with
  | [] => ""
  | f :: _ => "C:\fakepath\" ++ name f
  end.

Definition clearValue (i : FileInput) : FileInput := {| files := [] |}.

(** The result of the validation: the script's function returns [undefined]
    on every path, so the result names the [return] that was reached, with the
    reason codes of the specification; [NO_FILE] is the first one. *)
Inductive ValidationResult : Type := NO_FILE | BAD_EXTENSION | TOO_LARGE | OK.

(** ** Notifications and timers *)

(** An element created by [showAlert].  [elType] is the [type] argument, which
    ends up in the class name; [opacity] is [style.opacity]. *)
Record AlertEl : Type := mkAlert {
  elId : nat;
  elType : string;
  elMessage : string;
  opacity : string
}.

Definition className (e : AlertEl) : string :=
  "alert alert-" ++ elType e ++ " alert-dismissible fade show alert-auto".

(** The callbacks handed to [setTimeout] by [showAlert]; each closes over one
    alert element, named here by its identity. *)
Inductive Callback : Type :=
| RemoveEl (id : nat)      (* () => alert.remove() *)
| FadeIn (id : nat)        (* () => { alertDiv.style.opacity = '1' } *)
| AutoDismiss (id : nat).  (* the auto-dismiss callback *)

Record Timer : Type := mkTimer { due : N; action : Callback }.

(** The part of the document the notification channel works on: the clock (ms),
    the next element identity, the [.alert.alert-auto] elements attached to the
    document in document order, and the pending timers in registration order. *)
Record Doc : Type := mkDoc {
  now : N;
  fresh : nat;
  alerts : list AlertEl;
  timers : list Timer
}.

Definition setTimeout (cb : Callback) (delay : N) (d : Doc) : Doc :=
  {| now := now d; fresh := fresh d; alerts := alerts d;
     timers := timers d ++ [ {| due := (now d + delay)%N; action := cb |} ] |}.

Definition setAlerts (l : list AlertEl) (d : Doc) : Doc :=
  {| now := now d; fresh := fresh d; alerts := l; timers := timers d |}.

Definition attached (id : nat) (d : Doc) : bool :=
  existsb (fun e => elId e =? id)%nat (alerts d).

(** [el.remove()]: detaches the element; nothing happens when it is not
    attached. *)
Definition removeEl (id : nat) (d : Doc) : Doc :=
  setAlerts (filter (fun e => negb (elId e =? id)%nat) (alerts d)) d.

(** [el.style.opacity = o].  Only attached elements are tracked, a detached
    one has no effect on the document. *)
Definition setOpacity (id : nat) (o : string) (d : Doc) : Doc :=
  setAlerts (map (fun e => if (elId e =? id)%nat
                           then {| elId := elId e; elType := elType e;
                                   elMessage := elMessage e; opacity := o |}
                           else e) (alerts d)) d.

(** [document.createElement]: a new identity. *)
Definition createElement (d : Doc) : nat * Doc :=
  (fresh d, {| now := now d; fresh := S (fresh d); alerts := alerts d; timers := timers d |}).

(** The close control of an alert ([data-bs-dismiss="alert"]) is handled by
    the Bootstrap library, not by this script: it detaches the alert.  It has
    no access to the timers, whose handles [showAlert] does not keep. *)
Definition closeAlert (id : nat) (d : Doc) : Doc := removeEl id d.

(** The alerts a user can see: attached and not faded out to opacity 0. *)
Definition visible (d : Doc) : list AlertEl :=
  filter (fun e => negb (String.eqb (opacity e) "0")) (alerts d).

(** *** The event loop *)

(** The pending timer that fires next at or before time [t]: the smallest due
    time, the first registered one among equals. *)
Fixpoint minDue (ts : list Timer) : option N :=
  match ts with
  | [] => None
  | tm :: r => match minDue r with
               | None => Some (due tm)
               | Some m => Some (N.min (due tm) m)
               end
  end.

Fixpoint takeDue (m : N) (ts : list Timer) : option (Timer * list Timer) :=
  match ts with
  | [] => None
  | tm :: r => if (due tm =? m)%N then Some (tm, r)
               else match takeDue m r with
                    | Some (x, r') => Some (x, tm :: r')
                    | None => None
                    end
  end.

Definition nextTimer (t : N) (ts : list Timer) : option (Timer * list Timer) :=
  match minDue ts with
  | Some m => if (m <=? t)%N then takeDue m ts else None
  | None => None
  end.

(** Running the timers up to time [t]: the next pending timer is taken out of
    the queue, the clock moves to its due time and its callback runs, which
    may register further timers.  [fuel] bounds the number of callbacks. *)
Section EventLoop.
Variable fire : Callback -> Doc -> Doc.

Definition beginCallback (tm : Timer) (rest : list Timer) (d : Doc) : Doc :=
  {| now := N.max (now d) (due tm); fresh := fresh d;
     alerts := alerts d; timers := rest |}.

Definition idleUntil (t : N) (d : Doc) : Doc :=
  {| now := N.max (now d) t; fresh := fresh d;
     alerts := alerts d; timers := timers d |}.

Fixpoint run (fuel : nat) (t : N) (d : Doc) : Doc :=
  match fuel with
  | O => d
  | S k =>
      match nextTimer t (timers d) with
      | None => idleUntil t d
      | Some (tm, rest) => run k t (fire (action tm) (beginCallback tm rest d))
      end
  end.
End EventLoop.

(** A callback registers at most one further timer, and only the auto-dismiss
    callback does; this many steps empty the queue of everything due. *)
Definition weight (cb : Callback) : nat :=
  match cb with AutoDismiss _ => 2 | _ => 1 end.

Definition totalWeight (ts : list Timer) : nat :=
  fold_right (fun tm n => weight (action tm) + n) 0 ts.

(** ** The state of a debounced function *)

(** What the closure returned by [debounce] holds and does: [timeout], the
    live timer with its due time and the arguments its callback [later]
    captured ([None] when no timer is live); and the calls of [func] made so
    far, each with its time and arguments, oldest first. *)
Record Debounced (A : Type) : Type := mkDebounced {
  timeout : option (N * A);
  invoked : list (N * A)
}.

Arguments mkDebounced {A} _ _.
Arguments timeout {A} _.
Arguments invoked {A} _.

(** ** [getCurrentPage], the same in both revisions *)








(** ** What the auto refresh reads *)

(** The state of the page at a tick of the interval: the number of elements
    matching [.modal.show] and the tag of [document.activeElement] ([None] for
    no active element). *)
Record View : Type := mkView {
  modalsShown : nat;
  activeElement : option string
}.

(** * The enhanced script, [static/js/main.js] *)
Module Enhanced.

(** ** [showAlert] *)

Definition fire (cb : Callback) (d : Doc) : Doc :=
  match cb with
  | RemoveEl id => removeEl id d
  | FadeIn id => setOpacity id "1" d
  | AutoDismiss id =>
      if attached id d                        (* if (alertDiv.parentNode) *)
      then setTimeout (RemoveEl id) 300 (setOpacity id "0" d)
      else d
  end.

(** Time passes until [t]: every timer due by then fires, in order. *)
Definition advanceTo (t : N) (d : Doc) : Doc :=
  run fire (S (totalWeight (timers d))) t d.

(** The loop over [existingAlerts]: fade out, detach 300 ms later. *)
Definition fadeOut (d : Doc) (e : AlertEl) : Doc :=
  setTimeout (RemoveEl (elId e)) 300 (setOpacity (elId e) "0" d).

(** The markup of the new element (an icon chosen by [type], the message and
    the close control) is not part of the model: an alert is known by its
    identity, type, message and opacity. *)
Definition showAlert (message type : string) (duration : N) (d : Doc) : Doc :=
  let d1 := fold_left fadeOut (alerts d) d in
  let (id, d2) := createElement d1 in
  let alertDiv := {| elId := id; elType := type; elMessage := message; opacity := "0" |} in
  let d3 := setAlerts (alerts d2 ++ [alertDiv]) d2 in      (* body.appendChild *)
  let d4 := setTimeout (FadeIn id) 10 d3 in
  setTimeout (AutoDismiss id) duration d4.

(** ** [validateCSVFile] *)

(** The page around the upload form: the input [#csvFile], the markup of
    [#fileInfo] and the [disabled] flag of [#submitBtn] ([None] where the
    page has no such element), and the notification state. *)
Record Page : Type := mkPage {
  csvFile : FileInput;
  fileInfo : option string;
  submitBtn : option bool;
  doc : Doc
}.

Definition dangerSpan (msg : string) : string :=
  "<span class=" ++ dq ++ "text-danger" ++ dq ++ ">" ++ msg ++ "</span>".

Definition fileSummary (file : File) : string :=
  nl ++ "            <span class=" ++ dq ++ "text-success" ++ dq ++ ">File selected: <strong>"
     ++ name file ++ "</strong> (" ++ toFixed2 (fileSizeMB file) ++ " MB)</span><br>" ++ nl
     ++ "            File must be in CSV format with required columns: sender, subject, body, sent_date"
     ++ nl ++ "        ".

(** [if (el) el.prop = v]. *)
Definition setIfPresent {A : Type} (v : A) (el : option A) : option A :=
  match el with Some _ => Some v | None => None end.

Definition reject (msg : string) (p : Page) : Page :=
  {| csvFile := clearValue (csvFile p);                       (* input.value = '' *)
     fileInfo := setIfPresent (dangerSpan msg) (fileInfo p);
     submitBtn := setIfPresent true (submitBtn p);
     doc := showAlert msg "danger" 5000 (doc p) |}.

Definition validateCSVFile (p : Page) : Page * ValidationResult :=
  match files (csvFile p) with
  | [] => (p, NO_FILE)                                         (* if (!file) return *)
  | file :: _ =>
      let fileName := toLowerCase (name file) in
      let fileSize := fileSizeMB file in
      if negb (endsWith fileName ".csv") then
        (reject "Please select a CSV file." p, BAD_EXTENSION)
      else if Qgtb fileSize 100 then
        (reject "File size must be less than 100MB." p, TOO_LARGE)
      else
        ({| csvFile := csvFile p;
            fileInfo := setIfPresent (fileSummary file) (fileInfo p);
            submitBtn := setIfPresent false (submitBtn p);
            doc := doc p |}, OK)
  end.

(** ** The upload form: manual selection and drag and drop *)

Definition setDoc (d : Doc) (p : Page) : Page :=
  {| csvFile := csvFile p; fileInfo := fileInfo p; submitBtn := submitBtn p; doc := d |}.

Definition setFiles (fs : list File) (p : Page) : Page :=
  {| csvFile := {| files := fs |}; fileInfo := fileInfo p;
     submitBtn := submitBtn p; doc := doc p |}.

(** Manual selection: the browser stores the chosen files in the input and
    fires [change], whose listener calls [validateCSVFile(this)]. *)
Definition onChange (fs : list File) (p : Page) : Page :=
  fst (validateCSVFile (setFiles fs p)).

(** [handleDrop], with [files = e.dataTransfer.files]. *)
Definition handleDrop (dropped : list File) (p : Page) : Page :=
  match dropped with
  | [] => p
  | file :: _ =>
      if endsWith (toLowerCase (name file)) ".csv" then
        let p1 := setFiles dropped p in                       (* fileInput.files = files *)
        let p2 := fst (validateCSVFile p1) in
        setDoc (showAlert "CSV file ready for upload!" "success" 5000 (doc p2)) p2
      else
        setDoc (showAlert "Please drop a CSV file." "warning" 5000 (doc p)) p
  end.

(** ** Form submission: [setLoading] and the [submit] listeners *)

(** The content of a control, as far as [setLoading] looks at it: the class
    of its first [<i>] element, if it has one, and its text.  Where the
    control has no icon, the script writes the spinner followed by the text
    back as markup; the content is then the text again for a text that the
    parser reads as it stands ([plainText] below), which is what the model
    covers in that branch. *)
Record Markup : Type := mkMarkup { icon : option string; textContent : string }.

Record Control : Type := mkControl {
  tagName : string;
  disabled : bool;
  classList : list string;
  html : Markup;
  dataOriginalHtml : option Markup      (* the attribute data-original-html *)
}.

Definition classListAdd (c : string) (l : list string) : list string :=
  if existsb (String.eqb c) l then l else (l ++ [c])%list.

Definition classListRemove (c : string) (l : list string) : list string :=
  filter (fun x => negb (String.eqb c x)) l.

Definition spinner : string := "fas fa-spinner fa-spin me-2".

Definition setLoading (element : Control) (loading : bool) : Control :=
  if loading then
    if String.eqb (tagName element) "BUTTON" then
      {| tagName := tagName element;
         disabled := true;
         classList := classListAdd "loading" (classList element);
         html := match icon (html element) with
                 | Some _ =>      (* icon.className = spinner *)
                     {| icon := Some spinner; textContent := textContent (html element) |}
                 | None =>        (* innerHTML = spinner icon + textContent *)
                     {| icon := Some spinner; textContent := textContent (html element) |}
                 end;
         dataOriginalHtml := Some (html element) |}
    else
      {| tagName := tagName element;
         disabled := true;
         classList := classListAdd "loading" (classList element);
         html := html element;
         dataOriginalHtml := dataOriginalHtml element |}
  else
    {| tagName := tagName element;
       disabled := false;
       classList := classListRemove "loading" (classList element);
       html := match dataOriginalHtml element with
               | Some h => if String.eqb (tagName element) "BUTTON" then h else html element
               | None => html element
               end;
       dataOriginalHtml := if String.eqb (tagName element) "BUTTON" then None
                           else dataOriginalHtml element |}.

(** A form: its [action], the value of its [input[name="q"]] ([None] where
    it has none) and its [button[type="submit"]] elements in document
    order. *)
Record Form : Type := mkForm {
  action : string;
  queryInput : option string;
  submitButtons : list Control
}.

Record Event : Type := mkEvent { defaultPrevented : bool }.

Definition preventDefault (e : Event) : Event := {| defaultPrevented := true |}.

(** The listener of the forms whose action contains "search". *)
Definition searchSubmitListener (f : Form) (e : Event) (d : Doc) : Event * Doc :=
  match queryInput f with
  | Some v =>
      if (String.length (trim v) <? 2)%nat
      then (preventDefault e,
            showAlert "Please enter at least 2 characters to search." "warning" 5000 d)
      else (e, d)
  | None => (e, d)
  end.

(** The listener of every form; it takes no event argument.  Its
    [querySelector] finds the first submit button. *)
Definition loadingSubmitListener (f : Form) : Form :=
  match submitButtons f with
  | submitButton :: others =>
      if negb (disabled submitButton)
      then {| action := action f; queryInput := queryInput f;
              submitButtons := setLoading submitButton true :: others |}
      else f
  | [] => f
  end.

(** A [submit] event on a form: the listeners run in the order of their
    registration; the browser then sends the form unless the event was
    cancelled.  The boolean tells whether the form is sent. *)
Definition dispatchSubmit (f : Form) (d : Doc) : Form * Doc * bool :=
  let e0 := {| defaultPrevented := false |} in
  let (e1, d1) := if includes (action f) "search"
                  then searchSubmitListener f e0 d else (e0, d) in
  (loadingSubmitListener f, d1, negb (defaultPrevented e1)).

(** The [keydown] listener that [initializeSearch] puts on a query input, for
    the form [f] of that input.  On Enter it cancels the default action, so
    the browser fires no [submit] event, and calls [this.form.submit()]: that
    method sends the form without a [submit] event, hence without any of the
    listeners above.  Other keys are left alone. *)
Definition queryKeydownListener (key : string) (f : Form) (d : Doc) : Form * Doc * bool :=
  if String.eqb key "Enter" then (f, d, true) else (f, d, false).

(** The lock of a form is the [disabled] flag of its first submit button. *)
Definition locked (f : Form) : bool :=
  match submitButtons f with
  | submitButton :: _ => disabled submitButton
  | [] => false
  end.

(** The user activates the [k]-th submit button.  This is the browser's
    part: a disabled button is not activated and no event is fired; an
    enabled one fires [submit] on its form. *)
Definition clickSubmit (k : nat) (f : Form) (d : Doc) : Form * Doc * bool :=
  match nth_error (submitButtons f) k with
  | Some b => if disabled b then (f, d, false) else dispatchSubmit f d
  | None => (f, d, false)
  end.

(** ** Auto refresh of the approval queue *)

Definition refreshAllowed (v : View) : bool :=
  (modalsShown v =? 0)%nat
  && match activeElement v with
     | None => true
     | Some tag => negb (String.eqb tag "BUTTON") && negb (String.eqb tag "INPUT")
                   && negb (String.eqb tag "TEXTAREA")
     end.

(** The interval callback at time [t]: when the refresh is allowed it shows
    the indicator and registers [window.location.reload()] one second later;
    the result is the time of that reload. *)
Definition onTick (t : N) (v : View) : option N :=
  if refreshAllowed v then Some (t + 1000)%N else None.

(** The ticks of one page, 30 s apart from [t] on, each with the view it
    finds; the first reload replaces the page and ends its poller. *)
Fixpoint ticks (t : N) (vs : list View) : option N :=
  match vs with
  | [] => None
  | v :: r => match onTick t v with
              | Some reloadTime => Some reloadTime
              | None => ticks (t + 30000)%N r
              end
  end.

(** [initializeAutoRefresh] at time [t] on the page at [currentPath]: the
    interval is installed on the approval pages only. *)
Definition initializeAutoRefresh (currentPath : string) (t : N) (vs : list View) : option N :=
  if includes currentPath "/approval" then ticks (t + 30000)%N vs else None.

(** ** [debounce] *)

(** The timer callback [later], firing at time [due] with the captured
    arguments. *)
Definition later {A : Type} (immediate : bool) (due : N) (args : A)
    (st : Debounced A) : Debounced A :=
  {| timeout := None;                                           (* timeout = null *)
     invoked := if immediate then invoked st
                else (invoked st ++ [(due, args)])%list |}.     (* func(...args) *)

(** Time passes until [t]: the live timer fires if it is due. *)
Definition elapse {A : Type} (immediate : bool) (t : N) (st : Debounced A) : Debounced A :=
  match timeout st with
  | Some (due, args) => if (due <=? t)%N then later immediate due args st else st
  | None => st
  end.

(** [executedFunction(...args)] at time [t]. *)
Definition executedFunction {A : Type} (wait : N) (immediate : bool) (t : N) (args : A)
    (st : Debounced A) : Debounced A :=
  let callNow := immediate && match timeout st with Some _ => false | None => true end in
  (* clearTimeout(timeout); timeout = setTimeout(later, wait) *)
  {| timeout := Some ((t + wait)%N, args);
     invoked := if callNow then (invoked st ++ [(t, args)])%list else invoked st |}.

(** A call at time [t], after what was due by then. *)
Definition callAt {A : Type} (wait : N) (immediate : bool) (st : Debounced A)
    (call : N * A) : Debounced A :=
  executedFunction wait immediate (fst call) (snd call) (elapse immediate (fst call) st).

(** ** [truncateText] *)

(** [lastSpace > maxLength * 0.8].  The product is rounded to a double, but for
    a length below 2^50 an integer exceeds the rounded product exactly when it
    exceeds four fifths of [maxLength]. *)
Definition exceedsFourFifths (lastSpace maxLength : nat) : bool :=
  Qgtb (inject_Z (Z.of_nat lastSpace)) (inject_Z (Z.of_nat maxLength) * (8 # 10))%Q.

Definition truncateText (text : string) (maxLength : nat) (suffix : string) : string :=
  if String.length text <=? maxLength then text       (* the empty text included *)
  else
    let truncated := substring 0 maxLength text in
    match lastIndexOf " " truncated with
    | Some lastSpace =>
        if (0 <? lastSpace) && exceedsFourFifths lastSpace maxLength
        then substring 0 lastSpace truncated ++ suffix
        else truncated ++ suffix
    | None => truncated ++ suffix
    end.

(** ** Search suggestions *)

Definition suggestions : list string :=
  [ "negative emails"; "positive feedback"; "high priority emails"; "support tickets";
    "login issues"; "order inquiries"; "technical problems" ].

(** A suggestions dropdown: its identity and the text of its items. *)
Record Dropdown : Type := mkDropdown { ddId : nat; ddItems : list string }.

(** A search input: the property [_suggestionsDropdown] of the input, the
    dropdowns attached to its container, and the next element identity. *)
Record SearchInput : Type := mkSearchInput {
  suggestionsDropdown : option Dropdown;
  containerDropdowns : list Dropdown;
  nextDropdown : nat
}.

Definition hideSearchSuggestions (input : SearchInput) : SearchInput :=
  match suggestionsDropdown input with
  | Some dd =>
      {| suggestionsDropdown := None;
         containerDropdowns :=
           filter (fun x => negb (ddId x =? ddId dd)) (containerDropdowns input);
         nextDropdown := nextDropdown input |}
  | None => input
  end.

Definition showSearchSuggestions (input : SearchInput) (query : string) : SearchInput :=
  let input := hideSearchSuggestions input in
  let filteredSuggestions :=
    filter (fun s => includes (toLowerCase s) (toLowerCase query)) suggestions in
  match filteredSuggestions with
  | [] => input
  | _ :: _ =>
      let dropdown := {| ddId := nextDropdown input; ddItems := filteredSuggestions |} in
      {| suggestionsDropdown := Some dropdown;
         containerDropdowns := (containerDropdowns input ++ [dropdown])%list;
         nextDropdown := S (nextDropdown input) |}
  end.

End Enhanced.

(** * The older revision of the script *)
Module Basic.

(** ** [showAlert] *)

Definition fire (cb : Callback) (d : Doc) : Doc :=
  match cb with
  | AutoDismiss id => if attached id d then removeEl id d else d
  | RemoveEl id => removeEl id d
  | FadeIn id => setOpacity id "1" d
  end.

Definition advanceTo (t : N) (d : Doc) : Doc :=
  run fire (S (totalWeight (timers d))) t d.

Definition innerHTML (e : AlertEl) : string :=
  nl ++ "        " ++ elMessage e ++ nl
     ++ "        <button type=" ++ dq ++ "button" ++ dq ++ " class=" ++ dq ++ "btn-close" ++ dq
     ++ " data-bs-dismiss=" ++ dq ++ "alert" ++ dq ++ " aria-label=" ++ dq ++ "Close" ++ dq
     ++ "></button>" ++ nl ++ "    ".

(** The new alert goes right after the navigation bar, or first in the
    body: before every other auto alert in both cases. *)
Definition showAlert (message type : string) (duration : N) (d : Doc) : Doc :=
  let d1 := fold_left (fun acc e => removeEl (elId e) acc) (alerts d) d in
  let (id, d2) := createElement d1 in
  let alertDiv := {| elId := id; elType := type; elMessage := message; opacity := "" |} in
  let d3 := setAlerts (alertDiv :: alerts d2) d2 in
  setTimeout (AutoDismiss id) duration d3.

(** ** [validateCSVFile] *)

(** The element after the input ([input.nextElementSibling]): its classes
    and its markup. *)
Record Sibling : Type := mkSibling { sibClasses : list string; sibHTML : string }.

Record Page : Type := mkPage {
  csvFile : FileInput;
  nextElementSibling : option Sibling;
  doc : Doc
}.

Definition fileSummary (file : File) : string :=
  nl ++ "            File selected: <strong>" ++ name file ++ "</strong> ("
     ++ toFixed2 (fileSizeMB file) ++ " MB)<br>" ++ nl
     ++ "            File must be in CSV format with required columns: sender, subject, body, sent_date"
     ++ nl ++ "        ".

Definition reject (msg : string) (p : Page) : Page :=
  {| csvFile := clearValue (csvFile p);
     nextElementSibling := nextElementSibling p;
     doc := showAlert msg "danger" 5000 (doc p) |}.

Definition validateCSVFile (p : Page) : Page * ValidationResult :=
  match files (csvFile p) with
  | [] => (p, NO_FILE)
  | file :: _ =>
      let fileName := toLowerCase (name file) in
      let fileSize := fileSizeMB file in
      if negb (endsWith fileName ".csv") then
        (reject "Please select a CSV file." p, BAD_EXTENSION)
      else if Qgtb fileSize 50 then
        (reject "File size must be less than 50MB." p, TOO_LARGE)
      else
        ({| csvFile := csvFile p;
            nextElementSibling :=
              match nextElementSibling p with
              | Some formText =>
                  if existsb (String.eqb "form-text") (sibClasses formText)
                  then Some {| sibClasses := sibClasses formText;
                               sibHTML := fileSummary file |}
                  else Some formText
              | None => None
              end;
            doc := doc p |}, OK)
  end.

(** ** The upload form *)

Definition setFiles (fs : list File) (p : Page) : Page :=
  {| csvFile := {| files := fs |}; nextElementSibling := nextElementSibling p;
     doc := doc p |}.

Definition onChange (fs : list File) (p : Page) : Page :=
  fst (validateCSVFile (setFiles fs p)).

Definition handleDrop (dropped : list File) (p : Page) : Page :=
  match dropped with
  | [] => p
  | _ :: _ => fst (validateCSVFile (setFiles dropped p))
  end.

(** ** Auto refresh of the pending approvals *)

Definition refreshAllowed (v : View) : bool :=
  (modalsShown v =? 0)%nat
  && match activeElement v with
     | None => true
     | Some tag => negb (String.eqb tag "BUTTON") && negb (String.eqb tag "INPUT")
     end.

(** The interval callback reloads at once; the result is the time of the
    reload. *)
Definition onTick (t : N) (v : View) : option N :=
  if refreshAllowed v then Some t else None.

Fixpoint ticks (t : N) (vs : list View) : option N :=
  match vs with
  | [] => None
  | v :: r => match onTick t v with
              | Some reloadTime => Some reloadTime
              | None => ticks (t + 30000)%N r
              end
  end.

(** The interval is installed on the pending approvals only. *)
Definition initializeAutoRefresh (currentPath : string) (t : N) (vs : list View) : option N :=
  if includes currentPath "/approval" && includes currentPath "pending"
  then ticks (t + 30000)%N vs else None.

(** ** [debounce] *)

(** The timer callback [later]. *)
Definition later {A : Type} (due : N) (args : A) (st : Debounced A) : Debounced A :=
  {| timeout := None;                          (* the timer has fired *)
     invoked := (invoked st ++ [(due, args)])%list |}.

Definition elapse {A : Type} (t : N) (st : Debounced A) : Debounced A :=
  match timeout st with
  | Some (due, args) => if (due <=? t)%N then later due args st else st
  | None => st
  end.

(** [executedFunction(...args)] at time [t]: the live timer is cleared and a
    new one is set. *)
Definition executedFunction {A : Type} (wait : N) (t : N) (args : A)
    (st : Debounced A) : Debounced A :=
  {| timeout := Some ((t + wait)%N, args); invoked := invoked st |}.

Definition callAt {A : Type} (wait : N) (st : Debounced A) (call : N * A) : Debounced A :=
  executedFunction wait (fst call) (snd call) (elapse (fst call) st).

(** ** [truncateText] *)

Definition truncateText (text : string) (maxLength : nat) : string :=
  if String.length text <=? maxLength then text
  else substring 0 maxLength text ++ "...".

(** ** [escapeHtml] *)

(** The entity of each of the five characters the pattern matches (ampersand,
    angle brackets, double and single quote); every other character is kept. *)
Definition escapeChar (c : ascii) : string :=
  if Ascii.eqb c "&" then "&amp;"
  else if Ascii.eqb c "<" then "&lt;"
  else if Ascii.eqb c ">" then "&gt;"
  else if Ascii.eqb c "034" then "&quot;"
  else if Ascii.eqb c "'" then "&#039;"
  else String c EmptyString.

Fixpoint escapeHtml (text : string) : string :=
  match text with
  | EmptyString => EmptyString
  | String c r => escapeChar c ++ escapeHtml r
  end.

(** ** [setLoading] *)

Record Element : Type := mkElement {
  tagName : string;
  disabled : bool;
  classList : list string;
  elInnerHTML : string;
  dataOriginalText : option string      (* the attribute data-original-text *)
}.

Definition loadingMarkup : string :=
  "<span class=" ++ dq ++ "spinner-border spinner-border-sm me-2" ++ dq
  ++ " role=" ++ dq ++ "status" ++ dq ++ "></span>Loading...".

Definition setLoading (element : Element) (loading : bool) : Element :=
  if loading then
    if String.eqb (tagName element) "BUTTON" then
      {| tagName := tagName element;
         disabled := true;
         classList := Enhanced.classListAdd "loading" (classList element);
         elInnerHTML := loadingMarkup;
         dataOriginalText := Some (elInnerHTML element) |}
    else
      {| tagName := tagName element;
         disabled := true;
         classList := Enhanced.classListAdd "loading" (classList element);
         elInnerHTML := elInnerHTML element;
         dataOriginalText := dataOriginalText element |}
  else
    {| tagName := tagName element;
       disabled := false;
       classList := Enhanced.classListRemove "loading" (classList element);
       elInnerHTML := match dataOriginalText element with
                      | Some h => if String.eqb (tagName element) "BUTTON" then h
                                  else elInnerHTML element
                      | None => elInnerHTML element
                      end;
       dataOriginalText := if String.eqb (tagName element) "BUTTON" then None
                           else dataOriginalText element |}.

End Basic.

(** * Vocabulary of the statements *)

(** An alert after [style.opacity = '0']. *)
Definition faded (e : AlertEl) : AlertEl :=
  {| elId := elId e; elType := elType e; elMessage := elMessage e; opacity := "0" |}.

(** The element a callback closes over. *)
Definition target (cb : Callback) : nat :=
  match cb with RemoveEl id | FadeIn id | AutoDismiss id => id end.

(** Elements exist before they are attached or captured by a callback: every
    identity in the document is below the next fresh one. *)
Definition wellFormed (d : Doc) : Prop :=
  Forall (fun e => elId e < fresh d) (alerts d)
  /\ Forall (fun tm => target (action tm) < fresh d) (timers d).

(** The timer that detaches a superseded alert. *)
Definition removalOf (d : Doc) (e : AlertEl) : Timer :=
  {| due := (now d + 300)%N; action := RemoveEl (elId e) |}.

(** A document in which nothing happened yet. *)
Definition emptyDoc : Doc := {| now := 0%N; fresh := 0; alerts := []; timers := [] |}.

(** A callback is pending and due by time [t]. *)
Definition pendingBy (t : N) (cb : Callback) (ts : list Timer) : Prop :=
  exists tm, In tm ts /\ action tm = cb /\ (due tm <= t)%N.

(** The document while the alert [id] created by a call of the enhanced
    [showAlert] settles, seen from a time [t] before its expiry: the new alert
    is the last one; every other alert waits for a removal due by [t]; the new
    alert is opaque or waits for its fade-in; and no other callback on it fires
    by [t]. *)
Definition settling (t : N) (id : nat) (ty m : string) (d : Doc) : Prop :=
  exists l o,
    alerts d = (l ++ [mkAlert id ty m o])%list
    /\ Forall (fun e => elId e <> id /\ pendingBy t (RemoveEl (elId e)) (timers d)) l
    /\ (o = "1" \/ (o = "0" /\ pendingBy t (FadeIn id) (timers d)))
    /\ Forall (fun tm => target (action tm) = id ->
                         action tm = FadeIn id \/ (t < due tm)%N) (timers d).

(** The document while the alert [id] created by a call of the enhanced
    [showAlert] fades in, seen from a time [t] before its expiry: the new alert
    is the last one, opaque or waiting for a fade-in due by [t], and no other
    callback on it fires by [t].  Nothing is asked of the other alerts. *)
Definition appearing (t : N) (id : nat) (ty m : string) (d : Doc) : Prop :=
  exists l o,
    alerts d = (l ++ [mkAlert id ty m o])%list
    /\ (o = "1" \/ (o = "0" /\ pendingBy t (FadeIn id) (timers d)))
    /\ Forall (fun tm => target (action tm) = id ->
                         action tm = FadeIn id \/ (t < due tm)%N) (timers d).

(** What a drop leaves behind, apart from the dropped files beyond the first:
    the head of the selection, the markup next to the input, the submit button
    and the notification state. *)
Definition outcome (p : Enhanced.Page) :
    option File * option string * option bool * Doc :=
  (hd_error (files (Enhanced.csvFile p)), Enhanced.fileInfo p, Enhanced.submitBtn p,
   Enhanced.doc p).

Definition olderOutcome (q : Basic.Page) : option File * option Basic.Sibling * Doc :=
  (hd_error (files (Basic.csvFile q)), Basic.nextElementSibling q, Basic.doc q).

(** The conditions under which the enhanced interval callback skips a tick: a
    modal is shown, or the focus is on a button, an input or a text area. *)
Definition blocked (v : View) : Prop :=
  0 < modalsShown v
  \/ exists tag, activeElement v = Some tag /\ In tag ["BUTTON"; "INPUT"; "TEXTAREA"].

(** The same for the older callback, which does not look for text areas. *)
Definition olderBlocked (v : View) : Prop :=
  0 < modalsShown v
  \/ exists tag, activeElement v = Some tag /\ In tag ["BUTTON"; "INPUT"].


(** Example forms and views. *)
Definition uploadButton : Enhanced.Control :=
  {| Enhanced.tagName := "BUTTON"; Enhanced.disabled := false;
     Enhanced.classList := ["btn"; "btn-primary"];
     Enhanced.html := {| Enhanced.icon := Some "fas fa-upload me-2";
                         Enhanced.textContent := "Upload" |};
     Enhanced.dataOriginalHtml := None |}.

Definition uploadForm : Enhanced.Form :=
  {| Enhanced.action := "/emails/upload"; Enhanced.queryInput := None;
     Enhanced.submitButtons := [uploadButton] |}.

Definition approveButton : Enhanced.Control :=
  {| Enhanced.tagName := "BUTTON"; Enhanced.disabled := false;
     Enhanced.classList := ["btn"; "btn-success"];
     Enhanced.html := {| Enhanced.icon := None; Enhanced.textContent := "Approve" |};
     Enhanced.dataOriginalHtml := None |}.

Definition rejectButton : Enhanced.Control :=
  {| Enhanced.tagName := "BUTTON"; Enhanced.disabled := false;
     Enhanced.classList := ["btn"; "btn-danger"];
     Enhanced.html := {| Enhanced.icon := None; Enhanced.textContent := "Reject" |};
     Enhanced.dataOriginalHtml := None |}.

Definition reviewForm : Enhanced.Form :=
  {| Enhanced.action := "/approval/review"; Enhanced.queryInput := None;
     Enhanced.submitButtons := [approveButton; rejectButton] |}.

(** Example values: an upload page with both optional elements, its older
    form, and a few files. *)
Definition uploadPage : Enhanced.Page :=
  {| Enhanced.csvFile := {| files := [] |}; Enhanced.fileInfo := Some "";
     Enhanced.submitBtn := Some false; Enhanced.doc := emptyDoc |}.

Definition olderUploadPage : Basic.Page :=
  {| Basic.csvFile := {| files := [] |};
     Basic.nextElementSibling := Some {| Basic.sibClasses := ["form-text"]; Basic.sibHTML := "" |};
     Basic.doc := emptyDoc |}.

Definition reportCsv : File := {| name := "report.csv"; size := 2621440 |}.
Definition notesTxt : File := {| name := "notes.txt"; size := 1024 |}.
Definition hugeTxt : File := {| name := "huge.txt"; size := 209715200 |}.
Definition hugeCsv : File := {| name := "huge.CSV"; size := 209715200 |}.



(** The characters that open or close markup or an attribute value. *)
Definition markupChar (c : ascii) : bool :=
  Ascii.eqb c "<" || Ascii.eqb c ">" || Ascii.eqb c "034" || Ascii.eqb c "'".

(** The document while the alert [id], created at time [created] with the
    duration [u], waits for its expiry: its auto-dismiss timers are due at
    [created + u]; and while it is attached, either such a timer is pending
    and the clock has not passed its due time, or its removal is pending and
    due by [created + u + 300]. *)
Definition expiring (created u : N) (id : nat) (d : Doc) : Prop :=
  (forall x, In x (timers d) -> action x = AutoDismiss id -> due x = (created + u)%N)
  /\ (attached id d = true ->
      ((exists x, In x (timers d) /\ action x = AutoDismiss id)
       /\ (now d <= created + u)%N)
      \/ (exists x, In x (timers d) /\ action x = RemoveEl id
                    /\ (due x <= created + u + 300)%N)).

(** What can happen to the notifications of a page: a call of [showAlert],
    time passing until [t], the user closing the alert [id]. *)
Inductive Op : Type :=
| Show (message type : string) (duration : N)
| Wait (t : N)
| Close (id : nat).

Definition olderApply (d : Doc) (o : Op) : Doc :=
  match o with
  | Show m ty u => Basic.showAlert m ty u d
  | Wait t => Basic.advanceTo t d
  | Close id => closeAlert id d
  end.

(** The dropdowns attached for a search input are exactly the one the input
    remembers, if it remembers one. *)
Definition oneDropdown (input : Enhanced.SearchInput) : Prop :=
  Enhanced.containerDropdowns input
  = match Enhanced.suggestionsDropdown input with
    | Some dd => [dd]
    | None => []
    end.



(** * Sizes and names *)

Lemma Qgtb_fileSizeMB (f : File) (mb : positive) :
  Qgtb (fileSizeMB f) (inject_Z (Zpos mb)) = true <-> (Npos mb * 1048576 < size f)%N.
Proof.
  unfold Qgtb, fileSizeMB, Qle_bool, Qdiv, Qmult, Qinv, inject_Z. simpl.
  rewrite negb_true_iff, Z.leb_gt. lia.
Qed.

Lemma over_100MB (f : File) :
  Qgtb (fileSizeMB f) 100%Q = true <-> (104857600 < size f)%N.
Proof.
  change 100%Q with (inject_Z (Zpos 100)). rewrite Qgtb_fileSizeMB. lia.
Qed.

Lemma over_50MB (f : File) :
  Qgtb (fileSizeMB f) 50%Q = true <-> (52428800 < size f)%N.
Proof.
  change 50%Q with (inject_Z (Zpos 50)). rewrite Qgtb_fileSizeMB. lia.
Qed.

Lemma within_100MB (f : File) :
  Qgtb (fileSizeMB f) 100%Q = false <-> (size f <= 104857600)%N.
Proof.
  pose proof (over_100MB f) as H.
  destruct (Qgtb (fileSizeMB f) 100%Q); split; intro G; try reflexivity; try discriminate.
  - assert (104857600 < size f)%N by (apply H; reflexivity). lia.
  - destruct (N.le_gt_cases (size f) 104857600) as [L | L]; [assumption|].
    apply H in L. discriminate.
Qed.

Lemma within_50MB (f : File) :
  Qgtb (fileSizeMB f) 50%Q = false <-> (size f <= 52428800)%N.
Proof.
  pose proof (over_50MB f) as H.
  destruct (Qgtb (fileSizeMB f) 50%Q); split; intro G; try reflexivity; try discriminate.
  - assert (52428800 < size f)%N by (apply H; reflexivity). lia.
  - destruct (N.le_gt_cases (size f) 52428800) as [L | L]; [assumption|].
    apply H in L. discriminate.
Qed.

(** * The notification channel, one call *)

Lemma faded_id (e : AlertEl) : elId (faded e) = elId e.
Proof. reflexivity. Qed.

(** The loop of [showAlert] over the existing alerts, as one update. *)
Lemma fold_fadeOut (l : list AlertEl) : forall d,
  fold_left Enhanced.fadeOut l d =
  {| now := now d; fresh := fresh d;
     alerts := map (fun e => if existsb (fun x => elId x =? elId e) l then faded e else e)
                   (alerts d);
     timers := (timers d ++ map (removalOf d) l)%list |}.
Proof.
  induction l as [| a l IH]; intro d; simpl.
  - rewrite app_nil_r, map_id. destruct d; reflexivity.
  - rewrite IH. unfold Enhanced.fadeOut, setTimeout, setOpacity, setAlerts, removalOf; simpl.
    f_equal.
    + rewrite map_map. apply map_ext. intro e.
      rewrite (Nat.eqb_sym (elId a) (elId e)).
      destruct (elId e =? elId a) eqn:E; simpl.
      * fold (faded e). destruct (existsb _ l); reflexivity.
      * reflexivity.
    + rewrite <- app_assoc. reflexivity.
Qed.

Lemma existsb_self (l : list AlertEl) (e : AlertEl) :
  In e l -> existsb (fun x => elId x =? elId e) l = true.
Proof.
  intro H. apply existsb_exists. exists e. split; [assumption | apply Nat.eqb_refl].
Qed.

Lemma fadeOut_all (d : Doc) :
  fold_left Enhanced.fadeOut (alerts d) d =
  {| now := now d; fresh := fresh d; alerts := map faded (alerts d);
     timers := (timers d ++ map (removalOf d) (alerts d))%list |}.
Proof.
  rewrite fold_fadeOut. f_equal.
  apply map_ext_in. intros e H. rewrite (existsb_self _ _ H). reflexivity.
Qed.

(** What one call of the enhanced [showAlert] does to the document. *)
Lemma showAlert_spec (m ty : string) (u : N) (d : Doc) :
  Enhanced.showAlert m ty u d =
  {| now := now d; fresh := S (fresh d);
     alerts := (map faded (alerts d) ++ [mkAlert (fresh d) ty m "0"])%list;
     timers := ((timers d ++ map (removalOf d) (alerts d))
                ++ [mkTimer (now d + 10) (FadeIn (fresh d))])
               ++ [mkTimer (now d + u) (AutoDismiss (fresh d))] |}.
Proof.
  unfold Enhanced.showAlert. rewrite fadeOut_all. reflexivity.
Qed.

Lemma fold_removeEl (l : list AlertEl) : forall d,
  fold_left (fun acc e => removeEl (elId e) acc) l d =
  setAlerts (filter (fun e => negb (existsb (fun x => elId x =? elId e) l)) (alerts d)) d.
Proof.
  induction l as [| a l IH]; intro d; simpl.
  - unfold setAlerts. destruct d as [n f al ts]; simpl. f_equal.
    induction al as [| x al IHal]; simpl; [reflexivity | now rewrite <- IHal].
  - rewrite IH. unfold removeEl, setAlerts; simpl. f_equal.
    induction (alerts d) as [| x al IHal]; simpl; [reflexivity|].
    rewrite (Nat.eqb_sym (elId a) (elId x)).
    destruct (elId x =? elId a); simpl; [assumption|].
    destruct (existsb _ l); simpl; [assumption | now rewrite IHal].
Qed.

Lemma filter_known_ids (l l' : list AlertEl) :
  incl l' l ->
  filter (fun e => negb (existsb (fun x => elId x =? elId e) l)) l' = [].
Proof.
  induction l' as [| x l' IH]; intro H; simpl; [reflexivity|].
  rewrite (existsb_self l x); simpl.
  - apply IH. intros y Hy. apply H. now right.
  - apply H. now left.
Qed.

(** What one call of the older [showAlert] does to the document. *)
Lemma basic_showAlert_spec (m ty : string) (u : N) (d : Doc) :
  Basic.showAlert m ty u d =
  {| now := now d; fresh := S (fresh d);
     alerts := [mkAlert (fresh d) ty m ""];
     timers := (timers d ++ [mkTimer (now d + u) (AutoDismiss (fresh d))])%list |}.
Proof.
  unfold Basic.showAlert. rewrite fold_removeEl.
  rewrite (filter_known_ids (alerts d) (alerts d) (incl_refl _)).
  reflexivity.
Qed.

(** * The file intake gate *)

Section Intake.
Variables (f : File) (rest : list File).
Variables (p : Enhanced.Page) (q : Basic.Page).
Hypothesis staged : files (Enhanced.csvFile p) = f :: rest.
Hypothesis staged' : files (Basic.csvFile q) = f :: rest.

Lemma enhanced_bad_extension :
  endsWith (toLowerCase (name f)) ".csv" = false ->
  Enhanced.validateCSVFile p = (Enhanced.reject "Please select a CSV file." p, BAD_EXTENSION).
Proof.
  intro E. unfold Enhanced.validateCSVFile. rewrite staged, E. reflexivity.
Qed.

Lemma basic_bad_extension :
  endsWith (toLowerCase (name f)) ".csv" = false ->
  Basic.validateCSVFile q = (Basic.reject "Please select a CSV file." q, BAD_EXTENSION).
Proof.
  intro E. unfold Basic.validateCSVFile. rewrite staged', E. reflexivity.
Qed.

Lemma enhanced_too_large :
  endsWith (toLowerCase (name f)) ".csv" = true -> (104857600 < size f)%N ->
  Enhanced.validateCSVFile p
  = (Enhanced.reject "File size must be less than 100MB." p, TOO_LARGE).
Proof.
  intros E L. apply over_100MB in L.
  unfold Enhanced.validateCSVFile. rewrite staged, E, L. reflexivity.
Qed.

Lemma basic_too_large :
  endsWith (toLowerCase (name f)) ".csv" = true -> (52428800 < size f)%N ->
  Basic.validateCSVFile q
  = (Basic.reject "File size must be less than 50MB." q, TOO_LARGE).
Proof.
  intros E L. apply over_50MB in L.
  unfold Basic.validateCSVFile. rewrite staged', E, L. reflexivity.
Qed.

Lemma enhanced_accept :
  endsWith (toLowerCase (name f)) ".csv" = true -> (size f <= 104857600)%N ->
  Enhanced.validateCSVFile p
  = ({| Enhanced.csvFile := Enhanced.csvFile p;
        Enhanced.fileInfo := Enhanced.setIfPresent (Enhanced.fileSummary f) (Enhanced.fileInfo p);
        Enhanced.submitBtn := Enhanced.setIfPresent false (Enhanced.submitBtn p);
        Enhanced.doc := Enhanced.doc p |}, OK).
Proof.
  intros E L. apply within_100MB in L.
  unfold Enhanced.validateCSVFile. rewrite staged, E, L. reflexivity.
Qed.

Lemma basic_accept :
  endsWith (toLowerCase (name f)) ".csv" = true -> (size f <= 52428800)%N ->
  Basic.validateCSVFile q
  = ({| Basic.csvFile := Basic.csvFile q;
        Basic.nextElementSibling :=
          match Basic.nextElementSibling q with
          | Some formText =>
              if existsb (String.eqb "form-text") (Basic.sibClasses formText)
              then Some {| Basic.sibClasses := Basic.sibClasses formText;
                           Basic.sibHTML := Basic.fileSummary f |}
              else Some formText
          | None => None
          end;
        Basic.doc := Basic.doc q |}, OK).
Proof.
  intros E L. apply within_50MB in L.
  unfold Basic.validateCSVFile. rewrite staged', E, L. reflexivity.
Qed.
End Intake.

(** ** Claims about [validateCSVFile] *)

(** C1, as the code has it.  A staged file above the limit (100 MB in
    [static/js/main.js], 50 MB in the older revision) is rejected, and the
    reason depends on its name, which is checked first: [TOO_LARGE] with the
    size message when the lower-case name ends in ".csv", [BAD_EXTENSION] with
    the extension message otherwise. *)
Theorem C1_oversized_file_rejected_by_first_failing_check :
  forall (f g : File) (rest rest' : list File) (p : Enhanced.Page) (q : Basic.Page),
    files (Enhanced.csvFile p) = f :: rest ->
    files (Basic.csvFile q) = g :: rest' ->
    (104857600 < size f)%N ->
    (52428800 < size g)%N ->
    Enhanced.validateCSVFile p
    = (if endsWith (toLowerCase (name f)) ".csv"
       then (Enhanced.reject "File size must be less than 100MB." p, TOO_LARGE)
       else (Enhanced.reject "Please select a CSV file." p, BAD_EXTENSION))
    /\ Basic.validateCSVFile q
       = (if endsWith (toLowerCase (name g)) ".csv"
          then (Basic.reject "File size must be less than 50MB." q, TOO_LARGE)
          else (Basic.reject "Please select a CSV file." q, BAD_EXTENSION)).
Proof.
  intros f g rest rest' p q Hp Hq Lf Lg. split.
  - destruct (endsWith (toLowerCase (name f)) ".csv") eqn:E.
    + exact (enhanced_too_large f rest p Hp E Lf).
    + exact (enhanced_bad_extension f rest p Hp E).
  - destruct (endsWith (toLowerCase (name g)) ".csv") eqn:E.
    + exact (basic_too_large g rest' q Hq E Lg).
    + exact (basic_bad_extension g rest' q Hq E).
Qed.

Lemma C1_oversized_file_witness :
  Enhanced.validateCSVFile (Enhanced.setFiles [hugeCsv] uploadPage)
  = (Enhanced.reject "File size must be less than 100MB." (Enhanced.setFiles [hugeCsv] uploadPage),
     TOO_LARGE).
Proof.
  exact (proj1 (C1_oversized_file_rejected_by_first_failing_check
                  hugeCsv hugeCsv [] []
                  (Enhanced.setFiles [hugeCsv] uploadPage)
                  (Basic.setFiles [hugeCsv] olderUploadPage)
                  eq_refl eq_refl eq_refl eq_refl)).
Defined.

(** C1 as stated fails: a 200 MB file named "huge.txt" is above the limit of
    both revisions and is reported as [BAD_EXTENSION], not as [TOO_LARGE]. *)
Lemma C1_oversized_txt_is_not_too_large :
  (104857600 < size hugeTxt)%N
  /\ snd (Enhanced.validateCSVFile (Enhanced.setFiles [hugeTxt] uploadPage)) = BAD_EXTENSION
  /\ snd (Enhanced.validateCSVFile (Enhanced.setFiles [hugeTxt] uploadPage)) <> TOO_LARGE
  /\ snd (Basic.validateCSVFile (Basic.setFiles [hugeTxt] olderUploadPage)) = BAD_EXTENSION.
Proof.
  repeat split; try reflexivity. vm_compute. discriminate.
Qed.

(** C10.  With no file staged the function returns at once: the page,
    notifications and timers included, is left as it was. *)
Theorem C10_no_file_is_a_no_op :
  forall (p : Enhanced.Page) (q : Basic.Page),
    files (Enhanced.csvFile p) = [] ->
    files (Basic.csvFile q) = [] ->
    Enhanced.validateCSVFile p = (p, NO_FILE)
    /\ Basic.validateCSVFile q = (q, NO_FILE).
Proof.
  intros p q Hp Hq.
  unfold Enhanced.validateCSVFile, Basic.validateCSVFile.
  rewrite Hp, Hq. split; reflexivity.
Qed.

Lemma C10_no_file_witness :
  Enhanced.validateCSVFile uploadPage = (uploadPage, NO_FILE)
  /\ Basic.validateCSVFile olderUploadPage = (olderUploadPage, NO_FILE).
Proof.
  exact (C10_no_file_is_a_no_op uploadPage olderUploadPage eq_refl eq_refl).
Defined.

(** C9, as the code has it.  A staged file that passes both checks is
    accepted: the input keeps its selection, the submit button [#submitBtn]
    (enhanced revision, when the page has one) is enabled, and the summary
    naming the file and its size in MB with two decimals is written into
    [#fileInfo] with the success text class (enhanced revision) or into the
    form text after the input (older revision), when that element exists.
    The notification channel is not used: alerts and timers stay as they
    were. *)
Theorem C9_accepted_file_is_summarised_in_place :
  forall (f g : File) (rest rest' : list File) (p : Enhanced.Page) (q : Basic.Page),
    files (Enhanced.csvFile p) = f :: rest ->
    files (Basic.csvFile q) = g :: rest' ->
    endsWith (toLowerCase (name f)) ".csv" = true ->
    endsWith (toLowerCase (name g)) ".csv" = true ->
    (size f <= 104857600)%N ->
    (size g <= 52428800)%N ->
    let p' := fst (Enhanced.validateCSVFile p) in
    let q' := fst (Basic.validateCSVFile q) in
    (snd (Enhanced.validateCSVFile p) = OK /\ snd (Basic.validateCSVFile q) = OK)
    /\ (files (Enhanced.csvFile p') = f :: rest /\ files (Basic.csvFile q') = g :: rest')
    /\ (Enhanced.doc p' = Enhanced.doc p /\ Basic.doc q' = Basic.doc q)
    /\ Enhanced.submitBtn p' = Enhanced.setIfPresent false (Enhanced.submitBtn p)
    /\ Enhanced.fileInfo p'
       = Enhanced.setIfPresent
           (nl ++ "            <span class=" ++ dq ++ "text-success" ++ dq
               ++ ">File selected: <strong>" ++ name f ++ "</strong> ("
               ++ toFixed2 (fileSizeMB f) ++ " MB)</span><br>" ++ nl
               ++ "            File must be in CSV format with required columns: sender, subject, body, sent_date"
               ++ nl ++ "        ")
           (Enhanced.fileInfo p)
    /\ (forall t, Basic.nextElementSibling q = Some t ->
        existsb (String.eqb "form-text") (Basic.sibClasses t) = true ->
        Basic.nextElementSibling q'
        = Some {| Basic.sibClasses := Basic.sibClasses t;
                  Basic.sibHTML :=
                    nl ++ "            File selected: <strong>" ++ name g ++ "</strong> ("
                       ++ toFixed2 (fileSizeMB g) ++ " MB)<br>" ++ nl
                       ++ "            File must be in CSV format with required columns: sender, subject, body, sent_date"
                       ++ nl ++ "        " |}).
Proof.
  intros f g rest rest' p q Hp Hq Ef Eg Lf Lg p' q'. subst p' q'.
  rewrite (enhanced_accept f rest p Hp Ef Lf), (basic_accept g rest' q Hq Eg Lg).
  cbn [fst snd Enhanced.doc Basic.doc Enhanced.csvFile Basic.csvFile
       Enhanced.submitBtn Enhanced.fileInfo Basic.nextElementSibling].
  repeat split; try assumption; try reflexivity.
  intros t Ht Hc. rewrite Ht, Hc. reflexivity.
Qed.

Lemma C9_accepted_file_witness :
  snd (Enhanced.validateCSVFile (Enhanced.setFiles [reportCsv] uploadPage)) = OK
  /\ snd (Basic.validateCSVFile (Basic.setFiles [reportCsv] olderUploadPage)) = OK.
Proof.
  exact (proj1 (C9_accepted_file_is_summarised_in_place reportCsv reportCsv [] []
                  (Enhanced.setFiles [reportCsv] uploadPage)
                  (Basic.setFiles [reportCsv] olderUploadPage)
                  eq_refl eq_refl eq_refl eq_refl
                  ltac:(vm_compute; discriminate) ltac:(vm_compute; discriminate))).
Defined.

(** C9 as stated fails: accepting "report.csv" (2.5 MB) raises no
    notification.  No alert is attached and no timer is registered; the summary
    "report.csv (2.50 MB)" only appears in the markup of [#fileInfo], and on a
    page without [#fileInfo] and [#submitBtn] the call changes nothing. *)
Lemma C9_acceptance_raises_no_notification :
  let p := Enhanced.setFiles [reportCsv] uploadPage in
  let bare := {| Enhanced.csvFile := {| files := [reportCsv] |}; Enhanced.fileInfo := None;
                 Enhanced.submitBtn := None; Enhanced.doc := emptyDoc |} in
  snd (Enhanced.validateCSVFile p) = OK
  /\ alerts (Enhanced.doc (fst (Enhanced.validateCSVFile p))) = []
  /\ timers (Enhanced.doc (fst (Enhanced.validateCSVFile p))) = []
  /\ alerts (Basic.doc (fst (Basic.validateCSVFile (Basic.setFiles [reportCsv] olderUploadPage)))) = []
  /\ includes (match Enhanced.fileInfo (fst (Enhanced.validateCSVFile p)) with
               | Some h => h | None => "" end)
              "<strong>report.csv</strong> (2.50 MB)" = true
  /\ Enhanced.validateCSVFile bare = (bare, OK).
Proof.
  vm_compute. repeat split; reflexivity.
Qed.

(** C7.  The result of the validation is a function of the staged file alone:
    two calls that find the same file at the head of the selection return the
    same result, whatever else differs between the two pages.  Moreover a
    second call right after the first changes nothing more. *)
Theorem C7_validation_is_idempotent :
  forall (f : File) (r1 r2 : list File) (p1 p2 : Enhanced.Page) (q1 q2 : Basic.Page),
    files (Enhanced.csvFile p1) = f :: r1 ->
    files (Enhanced.csvFile p2) = f :: r2 ->
    files (Basic.csvFile q1) = f :: r1 ->
    files (Basic.csvFile q2) = f :: r2 ->
    (snd (Enhanced.validateCSVFile p1) = snd (Enhanced.validateCSVFile p2)
     /\ snd (Basic.validateCSVFile q1) = snd (Basic.validateCSVFile q2))
    /\ fst (Enhanced.validateCSVFile (fst (Enhanced.validateCSVFile p1)))
       = fst (Enhanced.validateCSVFile p1)
    /\ fst (Basic.validateCSVFile (fst (Basic.validateCSVFile q1)))
       = fst (Basic.validateCSVFile q1).
Proof.
  intros f r1 r2 p1 p2 q1 q2 H1 H2 K1 K2. repeat split.
  - unfold Enhanced.validateCSVFile. rewrite H1, H2.
    destruct (endsWith (toLowerCase (name f)) ".csv"); simpl; [|reflexivity].
    destruct (Qgtb (fileSizeMB f) 100%Q); reflexivity.
  - unfold Basic.validateCSVFile. rewrite K1, K2.
    destruct (endsWith (toLowerCase (name f)) ".csv"); simpl; [|reflexivity].
    destruct (Qgtb (fileSizeMB f) 50%Q); reflexivity.
  - destruct (endsWith (toLowerCase (name f)) ".csv") eqn:E.
    + destruct (N.le_gt_cases (size f) 104857600) as [L | L].
      * rewrite (enhanced_accept f r1 p1 H1 E L). cbn [fst].
        match goal with
        | |- fst (Enhanced.validateCSVFile ?x) = _ => rewrite (enhanced_accept f r1 x H1 E L)
        end.
        cbn [fst Enhanced.csvFile Enhanced.fileInfo Enhanced.submitBtn Enhanced.doc].
        destruct (Enhanced.fileInfo p1), (Enhanced.submitBtn p1); reflexivity.
      * rewrite (enhanced_too_large f r1 p1 H1 E L). reflexivity.
    + rewrite (enhanced_bad_extension f r1 p1 H1 E). reflexivity.
  - destruct (endsWith (toLowerCase (name f)) ".csv") eqn:E.
    + destruct (N.le_gt_cases (size f) 52428800) as [L | L].
      * rewrite (basic_accept f r1 q1 K1 E L). cbn [fst].
        match goal with
        | |- fst (Basic.validateCSVFile ?x) = _ => rewrite (basic_accept f r1 x K1 E L)
        end.
        cbn [fst Basic.csvFile Basic.nextElementSibling Basic.doc].
        destruct (Basic.nextElementSibling q1) as [t|]; [|reflexivity].
        destruct (existsb (String.eqb "form-text") (Basic.sibClasses t)) eqn:C;
          cbn [Basic.sibClasses]; rewrite C; reflexivity.
      * rewrite (basic_too_large f r1 q1 K1 E L). reflexivity.
    + rewrite (basic_bad_extension f r1 q1 K1 E). reflexivity.
Qed.

Lemma C7_validation_witness :
  snd (Enhanced.validateCSVFile (Enhanced.setFiles [hugeCsv; notesTxt] uploadPage))
  = snd (Enhanced.validateCSVFile
           (Enhanced.setFiles [hugeCsv]
              (fst (Enhanced.validateCSVFile (Enhanced.setFiles [hugeCsv; notesTxt] uploadPage))))).
Proof.
  exact (proj1 (proj1 (C7_validation_is_idempotent hugeCsv [notesTxt] []
           (Enhanced.setFiles [hugeCsv; notesTxt] uploadPage)
           (Enhanced.setFiles [hugeCsv]
              (fst (Enhanced.validateCSVFile (Enhanced.setFiles [hugeCsv; notesTxt] uploadPage))))
           (Basic.setFiles [hugeCsv; notesTxt] olderUploadPage)
           (Basic.setFiles [hugeCsv] olderUploadPage)
           eq_refl eq_refl eq_refl eq_refl))).
Defined.

(** * The event loop *)

Lemma minDue_lower_bound (ts : list Timer) (m : N) :
  minDue ts = Some m -> Forall (fun tm => (m <= due tm)%N) ts.
Proof.
  revert m. induction ts as [| tm r IH]; intros m H; simpl in H; [constructor|].
  destruct (minDue r) as [m'|] eqn:E.
  - injection H as <-. constructor; [lia|].
    specialize (IH m' eq_refl). eapply Forall_impl; [|exact IH].
    simpl. intros; lia.
  - injection H as <-. constructor; [lia|].
    destruct r; [constructor|]. simpl in E. destruct (minDue r); discriminate.
Qed.

Lemma minDue_attained (ts : list Timer) (m : N) :
  minDue ts = Some m -> exists tm, In tm ts /\ due tm = m.
Proof.
  revert m. induction ts as [| tm r IH]; intros m H; simpl in H; [discriminate|].
  destruct (minDue r) as [m'|] eqn:E.
  - injection H as <-. destruct (N.le_gt_cases (due tm) m') as [L | L].
    + exists tm. split; [now left | lia].
    + destruct (IH m' eq_refl) as [x [Hx Hd]]. exists x. split; [now right | lia].
  - injection H as <-. exists tm. split; [now left | reflexivity].
Qed.

Lemma takeDue_splits (m : N) (ts : list Timer) (x : Timer) (r : list Timer) :
  takeDue m ts = Some (x, r) ->
  due x = m /\ exists l1 l2, ts = (l1 ++ x :: l2)%list /\ r = (l1 ++ l2)%list.
Proof.
  revert r. induction ts as [| tm ts IH]; intros r H; simpl in H; [discriminate|].
  destruct (N.eqb_spec (due tm) m) as [E | E].
  - injection H as <- <-. split; [assumption|]. exists [], ts. split; reflexivity.
  - destruct (takeDue m ts) as [[y r']|]; [|discriminate].
    injection H as <- <-. destruct (IH r' eq_refl) as [Hd [l1 [l2 [H1 H2]]]].
    split; [assumption|]. exists (tm :: l1), l2. subst. split; reflexivity.
Qed.

Lemma takeDue_finds (m : N) (ts : list Timer) :
  (exists tm, In tm ts /\ due tm = m) -> takeDue m ts <> None.
Proof.
  induction ts as [| tm ts IH]; intros [x [Hx Hd]]; simpl; [destruct Hx|].
  destruct (N.eqb_spec (due tm) m) as [E | E]; [discriminate|].
  destruct Hx as [-> | Hx]; [contradiction|].
  destruct (takeDue m ts) as [[y r']|]; [discriminate|].
  exfalso. apply IH; [|reflexivity]. exists x. split; assumption.
Qed.

Lemma nextTimer_some (t : N) (ts : list Timer) (tm : Timer) (rest : list Timer) :
  nextTimer t ts = Some (tm, rest) ->
  (due tm <= t)%N /\ exists l1 l2, ts = (l1 ++ tm :: l2)%list /\ rest = (l1 ++ l2)%list.
Proof.
  unfold nextTimer. destruct (minDue ts) as [m|]; [|discriminate].
  destruct (N.leb_spec m t) as [L | L]; [|discriminate].
  intro H. apply takeDue_splits in H. destruct H as [Hd Hs]. split; [lia | exact Hs].
Qed.

Lemma nextTimer_none (t : N) (ts : list Timer) :
  nextTimer t ts = None -> Forall (fun tm => (t < due tm)%N) ts.
Proof.
  unfold nextTimer. destruct (minDue ts) as [m|] eqn:E.
  - destruct (N.leb_spec m t) as [L | L].
    + intro H. exfalso. exact (takeDue_finds m ts (minDue_attained ts m E) H).
    + intros _. eapply Forall_impl; [|exact (minDue_lower_bound ts m E)].
      simpl. intros; lia.
  - intros _. destruct ts as [| tm r]; [constructor|].
    simpl in E. destruct (minDue r); discriminate.
Qed.

Lemma totalWeight_app (l1 l2 : list Timer) :
  totalWeight (l1 ++ l2) = totalWeight l1 + totalWeight l2.
Proof.
  induction l1 as [| x l1 IH]; simpl; [reflexivity|]. rewrite IH. lia.
Qed.

Lemma totalWeight_cons (tm : Timer) (l : list Timer) :
  totalWeight (tm :: l) = weight (action tm) + totalWeight l.
Proof. reflexivity. Qed.

(** Reasoning about a run of the loop: an invariant of the single steps holds
    at the end, and with enough fuel nothing due is left in the queue. *)
Section RunInvariant.
Variable fire : Callback -> Doc -> Doc.
Variable t : N.
Variable P : Doc -> Prop.

Hypothesis P_idle : forall d, P d -> P (idleUntil t d).
Hypothesis P_step : forall d tm l1 l2,
  P d -> timers d = (l1 ++ tm :: l2)%list -> (due tm <= t)%N ->
  P (fire (action tm) (beginCallback tm (l1 ++ l2) d)).

Lemma run_invariant (fuel : nat) : forall d, P d -> P (run fire fuel t d).
Proof.
  induction fuel as [| k IH]; intros d H; simpl; [assumption|].
  destruct (nextTimer t (timers d)) as [[tm rest]|] eqn:E.
  - apply nextTimer_some in E. destruct E as [L [l1 [l2 [H1 H2]]]]. subst rest.
    apply IH. apply P_step; assumption.
  - apply P_idle. assumption.
Qed.

Hypothesis fire_weight : forall cb d,
  totalWeight (timers (fire cb d)) + 1 <= totalWeight (timers d) + weight cb.

Lemma run_complete (fuel : nat) : forall d,
  totalWeight (timers d) < fuel ->
  Forall (fun tm => (t < due tm)%N) (timers (run fire fuel t d)).
Proof.
  induction fuel as [| k IH]; intros d H; [lia|]. simpl.
  destruct (nextTimer t (timers d)) as [[tm rest]|] eqn:E.
  - apply IH. apply nextTimer_some in E. destruct E as [_ [l1 [l2 [H1 H2]]]].
    subst rest.
    pose proof (fire_weight (action tm) (beginCallback tm (l1 ++ l2) d)) as W.
    change (timers (beginCallback tm (l1 ++ l2) d)) with (l1 ++ l2)%list in W.
    rewrite H1, totalWeight_app, totalWeight_cons in H.
    rewrite totalWeight_app in W. lia.
  - simpl. apply nextTimer_none. assumption.
Qed.

Hypothesis fire_now : forall cb d, now (fire cb d) = now d.

End RunInvariant.

(** ** Both revisions drain their queue *)

Lemma enhanced_fire_weight (cb : Callback) (d : Doc) :
  totalWeight (timers (Enhanced.fire cb d)) + 1 <= totalWeight (timers d) + weight cb.
Proof.
  destruct cb as [id | id | id]; simpl; try lia.
  destruct (attached id d); simpl; [|lia].
  rewrite totalWeight_app. simpl. lia.
Qed.

Lemma basic_fire_weight (cb : Callback) (d : Doc) :
  totalWeight (timers (Basic.fire cb d)) + 1 <= totalWeight (timers d) + weight cb.
Proof.
  destruct cb as [id | id | id]; simpl; try lia.
  destruct (attached id d); simpl; lia.
Qed.

Lemma enhanced_advanceTo_drains (t : N) (d : Doc) :
  Forall (fun tm => (t < due tm)%N) (timers (Enhanced.advanceTo t d)).
Proof.
  apply run_complete; [exact enhanced_fire_weight | apply Nat.lt_succ_diag_r].
Qed.

Lemma basic_advanceTo_drains (t : N) (d : Doc) :
  Forall (fun tm => (t < due tm)%N) (timers (Basic.advanceTo t d)).
Proof.
  apply run_complete; [exact basic_fire_weight | apply Nat.lt_succ_diag_r].
Qed.

Lemma enhanced_fire_now (cb : Callback) (d : Doc) : now (Enhanced.fire cb d) = now d.
Proof.
  destruct cb as [id | id | id]; simpl; try reflexivity.
  destruct (attached id d); reflexivity.
Qed.


(** ** Detached elements stay detached *)

Lemma attached_removeEl (id id' : nat) (d : Doc) :
  attached id d = false -> attached id (removeEl id' d) = false.
Proof.
  unfold attached, removeEl, setAlerts; simpl.
  induction (alerts d) as [| e l IH]; simpl; [reflexivity|].
  intro H. apply orb_false_iff in H. destruct H as [H1 H2].
  destruct (negb (elId e =? id')); simpl; [rewrite H1|]; auto.
Qed.

Lemma attached_removeEl_same (id : nat) (d : Doc) : attached id (removeEl id d) = false.
Proof.
  unfold attached, removeEl, setAlerts; simpl.
  induction (alerts d) as [| e l IH]; simpl; [reflexivity|].
  destruct (elId e =? id) eqn:E; simpl; [assumption|].
  rewrite E. assumption.
Qed.

Lemma attached_setOpacity (id id' : nat) (o : string) (d : Doc) :
  attached id (setOpacity id' o d) = attached id d.
Proof.
  unfold attached, setOpacity, setAlerts; simpl.
  induction (alerts d) as [| e l IH]; simpl; [reflexivity|].
  rewrite IH. destruct (elId e =? id'); reflexivity.
Qed.

Lemma removeEl_detached (id : nat) (d : Doc) :
  attached id d = false -> removeEl id d = d.
Proof.
  unfold attached, removeEl, setAlerts. destruct d as [n f al ts]; simpl. intro H.
  f_equal. induction al as [| e l IH]; simpl; [reflexivity|].
  simpl in H. apply orb_false_iff in H. destruct H as [H1 H2].
  rewrite H1. simpl. now rewrite IH.
Qed.

Lemma enhanced_fire_keeps_detached (id : nat) (cb : Callback) (d : Doc) :
  attached id d = false -> attached id (Enhanced.fire cb d) = false.
Proof.
  intro H. destruct cb as [x | x | x]; simpl.
  - now apply attached_removeEl.
  - now rewrite attached_setOpacity.
  - destruct (attached x d); [|assumption].
    unfold setTimeout, attached; simpl.
    change (attached id (setOpacity x "0" d) = false). now rewrite attached_setOpacity.
Qed.

Lemma basic_fire_keeps_detached (id : nat) (cb : Callback) (d : Doc) :
  attached id d = false -> attached id (Basic.fire cb d) = false.
Proof.
  intro H. destruct cb as [x | x | x]; simpl.
  - now apply attached_removeEl.
  - now rewrite attached_setOpacity.
  - destruct (attached x d); [|assumption]. now apply attached_removeEl.
Qed.

Lemma enhanced_run_keeps_detached (id : nat) (t : N) (d : Doc) :
  attached id d = false -> attached id (Enhanced.advanceTo t d) = false.
Proof.
  unfold Enhanced.advanceTo.
  apply (run_invariant Enhanced.fire t (fun x => attached id x = false)).
  - intros x H. exact H.
  - intros x tm l1 l2 H _ _. apply enhanced_fire_keeps_detached. exact H.
Qed.

Lemma basic_run_keeps_detached (id : nat) (t : N) (d : Doc) :
  attached id d = false -> attached id (Basic.advanceTo t d) = false.
Proof.
  unfold Basic.advanceTo.
  apply (run_invariant Basic.fire t (fun x => attached id x = false)).
  - intros x H. exact H.
  - intros x tm l1 l2 H _ _. apply basic_fire_keeps_detached. exact H.
Qed.

(** ** Claims about the close control *)

(** C8, as the code has it.  Closing a notification by hand cancels nothing:
    the timers are exactly those pending before, the auto-dismiss callback of
    the closed notification among them.  The callback is harmless instead: the
    closed notification is never attached again, and whenever the callback
    runs afterwards its test of [alertDiv.parentNode] fails and the
    document is left as it is. *)
Theorem C8_close_keeps_timer_and_expiry_is_guarded :
  forall (d : Doc) (m ty : string) (u t : N),
    let id := fresh d in
    let closed := closeAlert id (Enhanced.showAlert m ty u d) in
    let closed' := closeAlert id (Basic.showAlert m ty u d) in
    (timers closed = timers (Enhanced.showAlert m ty u d)
     /\ In (mkTimer (now d + u) (AutoDismiss id)) (timers closed))
    /\ (timers closed' = timers (Basic.showAlert m ty u d)
        /\ In (mkTimer (now d + u) (AutoDismiss id)) (timers closed'))
    /\ (attached id (Enhanced.advanceTo t closed) = false
        /\ Enhanced.fire (AutoDismiss id) (Enhanced.advanceTo t closed)
           = Enhanced.advanceTo t closed
        /\ Enhanced.fire (RemoveEl id) (Enhanced.advanceTo t closed)
           = Enhanced.advanceTo t closed)
    /\ (attached id (Basic.advanceTo t closed') = false
        /\ Basic.fire (AutoDismiss id) (Basic.advanceTo t closed')
           = Basic.advanceTo t closed').
Proof.
  intros d m ty u t id closed closed'.
  assert (A : attached id (Enhanced.advanceTo t closed) = false).
  { apply enhanced_run_keeps_detached. apply attached_removeEl_same. }
  assert (B : attached id (Basic.advanceTo t closed') = false).
  { apply basic_run_keeps_detached. apply attached_removeEl_same. }
  repeat split.
  - subst closed. rewrite showAlert_spec. simpl. apply in_or_app. right. now left.
  - subst closed'. rewrite basic_showAlert_spec. simpl. apply in_or_app. right. now left.
  - exact A.
  - simpl. rewrite A. reflexivity.
  - simpl. now apply removeEl_detached.
  - exact B.
  - simpl. rewrite B. reflexivity.
Qed.

(** C8 as stated fails: after "Saved" is shown and closed by hand, its
    auto-dismiss timer is still pending, it is still pending just before it is
    due, and it is taken out of the queue only by firing at its due time. *)
Lemma C8_timer_survives_manual_close :
  let closed := closeAlert 0 (Enhanced.showAlert "Saved" "success" 5000 emptyDoc) in
  let closed' := closeAlert 0 (Basic.showAlert "Saved" "success" 5000 emptyDoc) in
  alerts closed = []
  /\ timers closed = [mkTimer 10 (FadeIn 0); mkTimer 5000 (AutoDismiss 0)]
  /\ timers (Enhanced.advanceTo 4999 closed) = [mkTimer 5000 (AutoDismiss 0)]
  /\ timers (Enhanced.advanceTo 5000 closed) = []
  /\ timers closed' = [mkTimer 5000 (AutoDismiss 0)]
  /\ timers (Basic.advanceTo 4999 closed') = [mkTimer 5000 (AutoDismiss 0)]
  /\ timers (Basic.advanceTo 5000 closed') = [].
Proof.
  vm_compute. repeat split; reflexivity.
Qed.

(** ** Well-formed documents *)

Lemma timer_of_rest (x tm : Timer) (l1 l2 : list Timer) :
  In x (l1 ++ l2) -> In x (l1 ++ tm :: l2).
Proof.
  intro H. apply in_or_app. apply in_app_or in H. destruct H; [now left | right; now right].
Qed.

Lemma timer_in_rest (x tm : Timer) (l1 l2 : list Timer) :
  In x (l1 ++ tm :: l2) -> action x <> action tm -> In x (l1 ++ l2).
Proof.
  intros H D. apply in_or_app. apply in_app_or in H.
  destruct H as [H | [H | H]]; [now left | subst; contradiction | now right].
Qed.

Lemma wellFormed_showAlert (m ty : string) (u : N) (d : Doc) :
  wellFormed d -> wellFormed (Enhanced.showAlert m ty u d).
Proof.
  intros [Ha Ht]. rewrite showAlert_spec. split; simpl.
  - apply Forall_app. split.
    + apply Forall_map. eapply Forall_impl; [|exact Ha]. simpl. intros; lia.
    + constructor; [simpl; lia | constructor].
  - repeat (apply Forall_app; split).
    + eapply Forall_impl; [|exact Ht]. simpl. intros; lia.
    + apply Forall_map. eapply Forall_impl; [|exact Ha]. simpl. intros; lia.
    + constructor; [simpl; lia | constructor].
    + constructor; [simpl; lia | constructor].
Qed.





(** ** A new alert supersedes the others *)

Lemma pendingBy_rest (t : N) (cb : Callback) (tm : Timer) (l1 l2 : list Timer) :
  pendingBy t cb (l1 ++ tm :: l2) -> action tm <> cb -> pendingBy t cb (l1 ++ l2).
Proof.
  intros [x [Hx [Ha Hd]]] D. exists x. repeat split; try assumption.
  apply (timer_in_rest x tm); [assumption | congruence].
Qed.

Lemma pendingBy_more (t : N) (cb : Callback) (ts more : list Timer) :
  pendingBy t cb ts -> pendingBy t cb (ts ++ more).
Proof.
  intros [x [Hx H]]. exists x. split; [apply in_or_app; now left | exact H].
Qed.

Lemma pendingBy_drained (t : N) (cb : Callback) (ts : list Timer) :
  Forall (fun tm => (t < due tm)%N) ts -> ~ pendingBy t cb ts.
Proof.
  intros H [x [Hx [_ Hd]]]. rewrite Forall_forall in H. specialize (H x Hx). lia.
Qed.

(** A pending callback stays pending when another callback is taken out of
    the queue, and when a timer is added. *)
Ltac still_pending tm H A :=
  first [ apply (pendingBy_rest _ _ tm); [exact H | rewrite A; congruence]
        | apply pendingBy_more;
          apply (pendingBy_rest _ _ tm); [exact H | rewrite A; congruence] ].

Section Settling.
Variables (t : N) (id : nat) (ty m : string).

Lemma settling_idle (d : Doc) :
  settling t id ty m d -> settling t id ty m (idleUntil t d).
Proof. intro H. exact H. Qed.

Lemma settling_step (d : Doc) (tm : Timer) (l1 l2 : list Timer) :
  settling t id ty m d -> timers d = (l1 ++ tm :: l2)%list -> (due tm <= t)%N ->
  settling t id ty m (Enhanced.fire (action tm) (beginCallback tm (l1 ++ l2) d)).
Proof.
  intros [l [o [Ha [Hl [Ho Ht]]]]] E L. rewrite E in *.
  assert (Htm : target (action tm) = id -> action tm = FadeIn id).
  { intro T. rewrite Forall_forall in Ht.
    destruct (Ht tm (in_elt tm l1 l2) T) as [F | F]; [exact F | lia]. }
  assert (Hrest : Forall (fun x => target (action x) = id ->
                                   action x = FadeIn id \/ (t < due x)%N) (l1 ++ l2)).
  { apply Forall_forall. intros x Hx. rewrite Forall_forall in Ht.
    apply Ht. now apply timer_of_rest. }
  destruct (action tm) as [x | x | x] eqn:A.
  - (* a removal *)
    assert (N1 : x <> id) by (intro; subst; specialize (Htm eq_refl); discriminate).
    exists (filter (fun e => negb (elId e =? x)) l), o. simpl. repeat split.
    + rewrite Ha, filter_app. simpl.
      destruct (Nat.eqb_spec id x) as [Q | Q]; [congruence | reflexivity].
    + apply Forall_forall. intros e He. apply filter_In in He. destruct He as [He Hx].
      rewrite Forall_forall in Hl. destruct (Hl e He) as [H1 H2]. split; [exact H1|].
      apply (pendingBy_rest t _ tm); [exact H2|]. rewrite A. intro Q. injection Q as Q.
      subst x. rewrite Nat.eqb_refl in Hx. discriminate.
    + destruct Ho as [Ho | [Ho Hp]]; [now left | right]. split; [exact Ho|].
      still_pending tm Hp A.
    + exact Hrest.
  - (* a fade-in *)
    set (f := fun e => if elId e =? x
                       then {| elId := elId e; elType := elType e;
                               elMessage := elMessage e; opacity := "1" |}
                       else e).
    assert (Hl' : Forall (fun e => elId e <> id
                                   /\ pendingBy t (RemoveEl (elId e)) (l1 ++ l2)) (map f l)).
    { apply Forall_map. eapply Forall_impl; [|exact Hl]. simpl. intros e [H1 H2].
      assert (Q : elId (f e) = elId e) by (unfold f; destruct (elId e =? x); reflexivity).
      rewrite Q. split; [exact H1|].
      still_pending tm H2 A. }
    destruct (Nat.eqb_spec id x) as [Q | Q].
    + exists (map f l), "1". simpl. repeat split.
      * rewrite Ha, map_app. simpl. subst x. rewrite Nat.eqb_refl. reflexivity.
      * exact Hl'.
      * now left.
      * exact Hrest.
    + exists (map f l), o. simpl. repeat split.
      * rewrite Ha, map_app. simpl.
        destruct (Nat.eqb_spec id x) as [Q' | Q']; [contradiction | reflexivity].
      * exact Hl'.
      * destruct Ho as [Ho | [Ho Hp]]; [now left | right]. split; [exact Ho|].
        still_pending tm Hp A.
      * exact Hrest.
  - (* the expiry of another alert *)
    assert (N1 : x <> id) by (intro; subst; specialize (Htm eq_refl); discriminate).
    simpl. destruct (attached x (beginCallback tm (l1 ++ l2) d)).
    + set (f := fun e => if elId e =? x
                         then {| elId := elId e; elType := elType e;
                                 elMessage := elMessage e; opacity := "0" |}
                         else e).
      exists (map f l), o. simpl. repeat split.
      * rewrite Ha, map_app. simpl.
        destruct (Nat.eqb_spec id x) as [Q | Q]; [congruence | reflexivity].
      * apply Forall_map. eapply Forall_impl; [|exact Hl]. simpl. intros e [H1 H2].
        assert (Q : elId (f e) = elId e) by (unfold f; destruct (elId e =? x); reflexivity).
        rewrite Q. split; [exact H1|]. still_pending tm H2 A.
      * destruct Ho as [Ho | [Ho Hp]]; [now left | right]. split; [exact Ho|].
        still_pending tm Hp A.
      * apply Forall_app. split; [exact Hrest|].
        constructor; [simpl; intro; contradiction | constructor].
    + exists l, o. simpl. repeat split.
      * exact Ha.
      * eapply Forall_impl; [|exact Hl]. simpl. intros e [H1 H2]. split; [exact H1|].
        still_pending tm H2 A.
      * destruct Ho as [Ho | [Ho Hp]]; [now left | right]. split; [exact Ho|].
        still_pending tm Hp A.
      * exact Hrest.
Qed.

(** Once nothing due by [t] is pending, only the new alert is left, opaque. *)
Lemma settling_done (d : Doc) :
  settling t id ty m d -> Forall (fun tm => (t < due tm)%N) (timers d) ->
  alerts d = [mkAlert id ty m "1"].
Proof.
  intros [l [o [Ha [Hl [Ho _]]]]] D. rewrite Ha.
  destruct l as [| e l].
  - destruct Ho as [-> | [_ Hp]]; [reflexivity|].
    exfalso. exact (pendingBy_drained t _ _ D Hp).
  - exfalso. inversion Hl as [| ? ? [_ Hp] _]. exact (pendingBy_drained t _ _ D Hp).
Qed.
End Settling.

(** The call itself establishes the invariant. *)
Lemma showAlert_settling (m ty : string) (u t : N) (d : Doc) :
  wellFormed d -> (now d + 300 <= t < now d + u)%N ->
  settling t (fresh d) ty m (Enhanced.showAlert m ty u d).
Proof.
  intros [Wa Wt] [L1 L2]. rewrite showAlert_spec.
  exists (map faded (alerts d)), "0". simpl. repeat split.
  - apply Forall_forall. intros e He. apply in_map_iff in He.
    destruct He as [a [<- Ia]]. rewrite faded_id. split.
    + rewrite Forall_forall in Wa. specialize (Wa a Ia). lia.
    + exists (removalOf d a). repeat split; [|simpl; lia].
      apply in_or_app. left. apply in_or_app. left. apply in_or_app. right.
      now apply in_map.
  - right. split; [reflexivity|].
    exists (mkTimer (now d + 10) (FadeIn (fresh d))). repeat split; [|simpl; lia].
    apply in_or_app. left. apply in_or_app. right. now left.
  - repeat (apply Forall_app; split).
    + eapply Forall_impl; [|exact Wt]. simpl. intros a Ha Q. lia.
    + apply Forall_map. apply Forall_forall. intros a Ia. simpl. intro Q.
      rewrite Forall_forall in Wa. specialize (Wa a Ia). lia.
    + constructor; [simpl; now left | constructor].
    + constructor; [simpl; intros _; right; lia | constructor].
Qed.

(** From 300 ms after a call of the enhanced [showAlert] until its expiry the
    new notification is the only auto alert in the document, fully opaque. *)
Lemma showAlert_settles (m ty : string) (u t : N) (d : Doc) :
  wellFormed d -> (now d + 300 <= t < now d + u)%N ->
  alerts (Enhanced.advanceTo t (Enhanced.showAlert m ty u d)) = [mkAlert (fresh d) ty m "1"].
Proof.
  intros W L. apply (settling_done t (fresh d) ty m).
  - unfold Enhanced.advanceTo. apply run_invariant.
    + apply settling_idle.
    + apply settling_step.
    + now apply showAlert_settling.
  - apply enhanced_advanceTo_drains.
Qed.

(** ** A new alert fades in *)

Section Appearing.
Variables (t : N) (id : nat) (ty m : string).

Lemma appearing_step (d : Doc) (tm : Timer) (l1 l2 : list Timer) :
  appearing t id ty m d -> timers d = (l1 ++ tm :: l2)%list -> (due tm <= t)%N ->
  appearing t id ty m (Enhanced.fire (action tm) (beginCallback tm (l1 ++ l2) d)).
Proof.
  intros [l [o [Ha [Ho Ht]]]] E L. rewrite E in *.
  assert (Htm : target (action tm) = id -> action tm = FadeIn id).
  { intro T. rewrite Forall_forall in Ht.
    destruct (Ht tm (in_elt tm l1 l2) T) as [F | F]; [exact F | lia]. }
  assert (Hrest : Forall (fun x => target (action x) = id ->
                                   action x = FadeIn id \/ (t < due x)%N) (l1 ++ l2)).
  { apply Forall_forall. intros x Hx. rewrite Forall_forall in Ht.
    apply Ht. now apply timer_of_rest. }
  destruct (action tm) as [x | x | x] eqn:A.
  - (* a removal, of another alert *)
    assert (N1 : x <> id) by (intro; subst; specialize (Htm eq_refl); discriminate).
    exists (filter (fun e => negb (elId e =? x)) l), o. simpl. split; [|split].
    + rewrite Ha, filter_app. simpl.
      destruct (Nat.eqb_spec id x) as [Q | Q]; [congruence | reflexivity].
    + destruct Ho as [Ho | [Ho Hp]]; [now left | right]. split; [exact Ho|].
      still_pending tm Hp A.
    + exact Hrest.
  - (* a fade-in *)
    set (f := fun e => if elId e =? x
                       then {| elId := elId e; elType := elType e;
                               elMessage := elMessage e; opacity := "1" |}
                       else e).
    destruct (Nat.eqb_spec id x) as [Q | Q].
    + exists (map f l), "1". simpl. split; [|split].
      * rewrite Ha, map_app. simpl. subst x. rewrite Nat.eqb_refl. reflexivity.
      * now left.
      * exact Hrest.
    + exists (map f l), o. simpl. split; [|split].
      * rewrite Ha, map_app. simpl.
        destruct (Nat.eqb_spec id x) as [Q' | Q']; [contradiction | reflexivity].
      * destruct Ho as [Ho | [Ho Hp]]; [now left | right]. split; [exact Ho|].
        still_pending tm Hp A.
      * exact Hrest.
  - (* the expiry of another alert *)
    assert (N1 : x <> id) by (intro; subst; specialize (Htm eq_refl); discriminate).
    simpl. destruct (attached x (beginCallback tm (l1 ++ l2) d)).
    + set (f := fun e => if elId e =? x
                         then {| elId := elId e; elType := elType e;
                                 elMessage := elMessage e; opacity := "0" |}
                         else e).
      exists (map f l), o. simpl. split; [|split].
      * rewrite Ha, map_app. simpl.
        destruct (Nat.eqb_spec id x) as [Q | Q]; [congruence | reflexivity].
      * destruct Ho as [Ho | [Ho Hp]]; [now left | right]. split; [exact Ho|].
        still_pending tm Hp A.
      * apply Forall_app. split; [exact Hrest|].
        constructor; [simpl; intro; contradiction | constructor].
    + exists l, o. simpl. split; [|split].
      * exact Ha.
      * destruct Ho as [Ho | [Ho Hp]]; [now left | right]. split; [exact Ho|].
        still_pending tm Hp A.
      * exact Hrest.
Qed.

(** Once nothing due by [t] is pending, the new alert is opaque, hence among
    the visible ones. *)
Lemma appearing_done (d : Doc) :
  appearing t id ty m d -> Forall (fun tm => (t < due tm)%N) (timers d) ->
  In (mkAlert id ty m "1") (visible d).
Proof.
  intros [l [o [Ha [Ho _]]]] D. unfold visible. rewrite Ha.
  apply filter_In. split.
  - apply in_or_app. right. left.
    destruct Ho as [-> | [_ Hp]]; [reflexivity|].
    exfalso. exact (pendingBy_drained t _ _ D Hp).
  - reflexivity.
Qed.
End Appearing.

Lemma showAlert_appearing (m ty : string) (u t : N) (d : Doc) :
  wellFormed d -> (now d + 10 <= t < now d + u)%N ->
  appearing t (fresh d) ty m (Enhanced.showAlert m ty u d).
Proof.
  intros [Wa Wt] [L1 L2]. rewrite showAlert_spec.
  exists (map faded (alerts d)), "0". simpl. split; [reflexivity | split].
  - right. split; [reflexivity|].
    exists (mkTimer (now d + 10) (FadeIn (fresh d))). repeat split; [|simpl; lia].
    apply in_or_app. left. apply in_or_app. right. now left.
  - repeat (apply Forall_app; split).
    + eapply Forall_impl; [|exact Wt]. simpl. intros a Ha Q. lia.
    + apply Forall_map. apply Forall_forall. intros a Ia. simpl. intro Q.
      rewrite Forall_forall in Wa. specialize (Wa a Ia). lia.
    + constructor; [simpl; now left | constructor].
    + constructor; [simpl; intros _; right; lia | constructor].
Qed.

(** From 10 ms after a call of the enhanced [showAlert] until its expiry the
    new notification is attached at opacity 1: the fade-in has run, and neither
    the removal of an older alert nor another expiry touches it. *)
Lemma showAlert_appears (m ty : string) (u t : N) (d : Doc) :
  wellFormed d -> (now d + 10 <= t < now d + u)%N ->
  In (mkAlert (fresh d) ty m "1")
     (visible (Enhanced.advanceTo t (Enhanced.showAlert m ty u d))).
Proof.
  intros W L. apply (appearing_done t (fresh d) ty m).
  - unfold Enhanced.advanceTo. apply run_invariant.
    + intros x Hx. exact Hx.
    + apply appearing_step.
    + now apply showAlert_appearing.
  - apply enhanced_advanceTo_drains.
Qed.

(** ** The notification of a rejected file *)

(** C2.  A staged file whose lower-case name does not end in ".csv" is
    rejected with [BAD_EXTENSION]; the input is emptied (its value becomes
    the empty string) and a notification of type danger with the message
    "Please select a CSV file." is surfaced.  In the older revision it is
    attached, visible, by the call itself, in place of the earlier alerts.  In
    the enhanced revision it is attached at opacity 0 behind the faded earlier
    alerts, with the fade-in queued 10 ms ahead; in a document whose elements
    were all created before the call, it is visible at opacity 1 from 10 ms
    after the call until the expiry at 5000 ms, and from 300 ms on it is the
    only auto alert to be seen. *)
Theorem C2_bad_extension_rejected :
  forall (f : File) (rest : list File) (p : Enhanced.Page) (q : Basic.Page),
    files (Enhanced.csvFile p) = f :: rest ->
    files (Basic.csvFile q) = f :: rest ->
    endsWith (toLowerCase (name f)) ".csv" = false ->
    let p' := fst (Enhanced.validateCSVFile p) in
    let q' := fst (Basic.validateCSVFile q) in
    let shown := mkAlert (fresh (Enhanced.doc p)) "danger" "Please select a CSV file." "1" in
    (snd (Enhanced.validateCSVFile p) = BAD_EXTENSION
     /\ snd (Basic.validateCSVFile q) = BAD_EXTENSION)
    /\ (value (Enhanced.csvFile p') = "" /\ files (Enhanced.csvFile p') = [])
    /\ (value (Basic.csvFile q') = "" /\ files (Basic.csvFile q') = [])
    /\ alerts (Enhanced.doc p')
       = (map faded (alerts (Enhanced.doc p))
          ++ [mkAlert (fresh (Enhanced.doc p)) "danger" "Please select a CSV file." "0"])%list
    /\ alerts (Basic.doc q')
       = [mkAlert (fresh (Basic.doc q)) "danger" "Please select a CSV file." ""]
    /\ visible (Basic.doc q')
       = [mkAlert (fresh (Basic.doc q)) "danger" "Please select a CSV file." ""]
    /\ In (mkTimer (now (Enhanced.doc p) + 10) (FadeIn (fresh (Enhanced.doc p))))
          (timers (Enhanced.doc p'))
    /\ (forall t : N,
          wellFormed (Enhanced.doc p) ->
          (now (Enhanced.doc p) + 10 <= t < now (Enhanced.doc p) + 5000)%N ->
          In shown (visible (Enhanced.advanceTo t (Enhanced.doc p')))
          /\ ((now (Enhanced.doc p) + 300 <= t)%N ->
              visible (Enhanced.advanceTo t (Enhanced.doc p')) = [shown])).
Proof.
  intros f rest p q Hp Hq E p' q' shown. subst p' q' shown.
  rewrite (enhanced_bad_extension f rest p Hp E), (basic_bad_extension f rest q Hq E).
  unfold Enhanced.reject, Basic.reject.
  cbn [fst snd Enhanced.doc Basic.doc Enhanced.csvFile Basic.csvFile].
  split; [split; reflexivity|].
  split; [split; reflexivity|].
  split; [split; reflexivity|].
  split; [rewrite showAlert_spec; reflexivity|].
  split; [rewrite basic_showAlert_spec; reflexivity|].
  split; [unfold visible; rewrite basic_showAlert_spec; reflexivity|].
  split.
  - rewrite showAlert_spec. cbn [timers].
    apply in_or_app. left. apply in_or_app. right. now left.
  - intros t W [L1 L2]. split.
    + apply showAlert_appears; [exact W | lia].
    + intro L3. unfold visible. rewrite showAlert_settles; [reflexivity | exact W | lia].
Qed.

Lemma C2_bad_extension_witness :
  let d := Enhanced.doc (fst (Enhanced.validateCSVFile (Enhanced.setFiles [notesTxt] uploadPage))) in
  (snd (Enhanced.validateCSVFile (Enhanced.setFiles [notesTxt] uploadPage)) = BAD_EXTENSION
   /\ snd (Basic.validateCSVFile (Basic.setFiles [notesTxt] olderUploadPage)) = BAD_EXTENSION)
  /\ visible d = []
  /\ In (mkAlert 0 "danger" "Please select a CSV file." "1") (visible (Enhanced.advanceTo 10 d)).
Proof.
  pose proof (C2_bad_extension_rejected notesTxt []
                (Enhanced.setFiles [notesTxt] uploadPage)
                (Basic.setFiles [notesTxt] olderUploadPage)
                eq_refl eq_refl eq_refl) as H.
  cbv zeta in H. cbv zeta.
  split; [exact (proj1 H)|].
  split; [reflexivity|].
  destruct H as [_ [_ [_ [_ [_ [_ [_ H]]]]]]].
  refine (proj1 (H 10%N _ _)).
  - split; constructor.
  - split; [vm_compute; discriminate | vm_compute; reflexivity].
Defined.

(** ** Claims about two notifications in a row *)




(** * Drag and drop *)

Lemma enhanced_drop_outcome (f : File) (r : list File) (p : Enhanced.Page) :
  outcome (Enhanced.handleDrop (f :: r) p) = outcome (Enhanced.handleDrop [f] p).
Proof.
  unfold outcome, Enhanced.handleDrop.
  destruct (endsWith (toLowerCase (name f)) ".csv") eqn:E; [|reflexivity].
  unfold Enhanced.validateCSVFile. simpl. rewrite E. simpl.
  destruct (Qgtb (fileSizeMB f) 100%Q); reflexivity.
Qed.

Lemma basic_drop_outcome (f : File) (r : list File) (q : Basic.Page) :
  olderOutcome (Basic.handleDrop (f :: r) q) = olderOutcome (Basic.handleDrop [f] q).
Proof.
  unfold olderOutcome, Basic.handleDrop, Basic.validateCSVFile. simpl.
  destruct (endsWith (toLowerCase (name f)) ".csv"); simpl; [|reflexivity].
  destruct (Qgtb (fileSizeMB f) 50%Q); reflexivity.
Qed.

(** C6, as the code has it.  Of a non-empty drop only the first file is looked
    at, and what the drop leaves behind does not depend on the others.  The
    older revision hands every drop to [validateCSVFile], exactly as a manual
    selection.  The enhanced revision does so only when the lower-case name of
    the first file ends in ".csv", and then adds the notification "CSV file
    ready for upload!"; any other first file is not validated: the input and
    the page are left alone and the warning "Please drop a CSV file." is
    shown. *)
Theorem C6_drop_considers_first_file :
  forall (f : File) (r : list File) (p : Enhanced.Page) (q : Basic.Page),
    Basic.handleDrop (f :: r) q = Basic.onChange (f :: r) q
    /\ olderOutcome (Basic.handleDrop (f :: r) q) = olderOutcome (Basic.handleDrop [f] q)
    /\ outcome (Enhanced.handleDrop (f :: r) p) = outcome (Enhanced.handleDrop [f] p)
    /\ Enhanced.handleDrop (f :: r) p
       = (if endsWith (toLowerCase (name f)) ".csv"
          then Enhanced.setDoc
                 (Enhanced.showAlert "CSV file ready for upload!" "success" 5000
                    (Enhanced.doc (Enhanced.onChange (f :: r) p)))
                 (Enhanced.onChange (f :: r) p)
          else Enhanced.setDoc
                 (Enhanced.showAlert "Please drop a CSV file." "warning" 5000 (Enhanced.doc p))
                 p).
Proof.
  intros f r p q.
  split; [reflexivity|].
  split; [apply basic_drop_outcome|].
  split; [apply enhanced_drop_outcome|].
  unfold Enhanced.handleDrop, Enhanced.onChange.
  destruct (endsWith (toLowerCase (name f)) ".csv"); reflexivity.
Qed.

(** C6 as stated fails in the enhanced revision: a dropped "notes.txt" does
    not go through [validateCSVFile].  A manual selection of the same file
    empties the input, disables the submit button and reports the danger
    message; the drop keeps the button enabled, writes nothing next to the
    input and only shows a warning. *)
Lemma C6_dropped_txt_is_not_validated :
  Enhanced.handleDrop [notesTxt] uploadPage <> Enhanced.onChange [notesTxt] uploadPage
  /\ Enhanced.submitBtn (Enhanced.onChange [notesTxt] uploadPage) = Some true
  /\ Enhanced.submitBtn (Enhanced.handleDrop [notesTxt] uploadPage) = Some false
  /\ Enhanced.fileInfo (Enhanced.handleDrop [notesTxt] uploadPage) = Some ""
  /\ alerts (Enhanced.doc (Enhanced.onChange [notesTxt] uploadPage))
     = [mkAlert 0 "danger" "Please select a CSV file." "0"]
  /\ alerts (Enhanced.doc (Enhanced.handleDrop [notesTxt] uploadPage))
     = [mkAlert 0 "warning" "Please drop a CSV file." "0"].
Proof.
  repeat split; try reflexivity.
  intro H. apply (f_equal Enhanced.submitBtn) in H. vm_compute in H. discriminate.
Qed.

(** * Form submission *)

Lemma loading_listener_locked (f : Enhanced.Form) :
  Enhanced.locked f = true -> Enhanced.loadingSubmitListener f = f.
Proof.
  unfold Enhanced.locked, Enhanced.loadingSubmitListener.
  destruct (Enhanced.submitButtons f) as [| b others]; [discriminate|].
  intros ->. reflexivity.
Qed.

Lemma setLoading_disables (b : Enhanced.Control) :
  Enhanced.disabled (Enhanced.setLoading b true) = true.
Proof.
  unfold Enhanced.setLoading. destruct (String.eqb (Enhanced.tagName b) "BUTTON"); reflexivity.
Qed.

Lemma dispatch_plain_form (f : Enhanced.Form) (d : Doc) :
  includes (Enhanced.action f) "search" = false ->
  Enhanced.dispatchSubmit f d = (Enhanced.loadingSubmitListener f, d, true).
Proof.
  intro H. unfold Enhanced.dispatchSubmit. rewrite H. reflexivity.
Qed.

(** C3, as the code has it.  The [submit] listener takes the lock and never
    cancels an event.  On a form that is not a search form, activating the
    enabled first submit button sends the form and leaves that button
    disabled.  While it is disabled, activating it again does nothing, which
    is the browser's doing.  A [submit] event that reaches the form
    otherwise, for one through another submit button of the form, changes
    nothing in the form and is not suppressed: the form is sent again. *)
Theorem C3_lock_is_taken_but_submit_is_not_cancelled :
  forall (f : Enhanced.Form) (b : Enhanced.Control) (others : list Enhanced.Control)
         (d d' : Doc),
    Enhanced.submitButtons f = b :: others ->
    Enhanced.disabled b = false ->
    includes (Enhanced.action f) "search" = false ->
    let f1 := fst (fst (Enhanced.clickSubmit 0 f d)) in
    snd (Enhanced.clickSubmit 0 f d) = true
    /\ Enhanced.submitButtons f1 = Enhanced.setLoading b true :: others
    /\ Enhanced.locked f1 = true
    /\ Enhanced.clickSubmit 0 f1 d' = (f1, d', false)
    /\ Enhanced.dispatchSubmit f1 d' = (f1, d', true)
    /\ (forall k c, nth_error others k = Some c -> Enhanced.disabled c = false ->
                    Enhanced.clickSubmit (S k) f1 d' = (f1, d', true)).
Proof.
  intros f b others d d' Hb Hd Hs f1.
  assert (E1 : Enhanced.clickSubmit 0 f d = (Enhanced.loadingSubmitListener f, d, true)).
  { unfold Enhanced.clickSubmit. rewrite Hb. simpl. rewrite Hd.
    apply dispatch_plain_form. exact Hs. }
  assert (E2 : Enhanced.loadingSubmitListener f
               = {| Enhanced.action := Enhanced.action f;
                    Enhanced.queryInput := Enhanced.queryInput f;
                    Enhanced.submitButtons := Enhanced.setLoading b true :: others |}).
  { unfold Enhanced.loadingSubmitListener. rewrite Hb, Hd. reflexivity. }
  subst f1. rewrite E1. cbn [fst snd]. rewrite E2.
  set (f1 := {| Enhanced.action := Enhanced.action f;
                Enhanced.queryInput := Enhanced.queryInput f;
                Enhanced.submitButtons := Enhanced.setLoading b true :: others |}).
  assert (L : Enhanced.locked f1 = true) by (apply setLoading_disables).
  assert (D : Enhanced.dispatchSubmit f1 d' = (f1, d', true)).
  { rewrite dispatch_plain_form; [|exact Hs]. rewrite (loading_listener_locked f1 L).
    reflexivity. }
  split; [reflexivity|]. split; [reflexivity|]. split; [exact L|].
  split; [|split; [exact D|]].
  - unfold Enhanced.clickSubmit.
    change (nth_error (Enhanced.submitButtons f1) 0) with (Some (Enhanced.setLoading b true)).
    cbv beta iota. rewrite setLoading_disables. reflexivity.
  - intros k c Hk Hc. unfold Enhanced.clickSubmit.
    change (nth_error (Enhanced.submitButtons f1) (S k)) with (nth_error others k).
    rewrite Hk, Hc. exact D.
Qed.

Lemma C3_lock_witness :
  let f1 := fst (fst (Enhanced.clickSubmit 0 uploadForm emptyDoc)) in
  Enhanced.locked f1 = true /\ Enhanced.clickSubmit 0 f1 emptyDoc = (f1, emptyDoc, false).
Proof.
  pose proof (C3_lock_is_taken_but_submit_is_not_cancelled
                uploadForm uploadButton [] emptyDoc emptyDoc
                eq_refl eq_refl eq_refl) as H.
  exact (conj (proj1 (proj2 (proj2 H))) (proj1 (proj2 (proj2 (proj2 H))))).
Defined.

(** C3 as stated fails.  On the review form the first submit sets the lock;
    with the lock held, the second submit button still sends the form, and so
    does any [submit] event: two submissions of the form are in flight. *)
Lemma C3_submit_while_locked_is_sent :
  let held := fst (fst (Enhanced.clickSubmit 0 reviewForm emptyDoc)) in
  snd (Enhanced.clickSubmit 0 reviewForm emptyDoc) = true
  /\ Enhanced.locked held = true
  /\ snd (Enhanced.clickSubmit 1 held emptyDoc) = true
  /\ snd (Enhanced.dispatchSubmit held emptyDoc) = true
  /\ ~ (forall (f : Enhanced.Form) (d : Doc),
          Enhanced.locked f = true -> snd (Enhanced.dispatchSubmit f d) = false).
Proof.
  repeat split.
  intro H.
  specialize (H (fst (fst (Enhanced.clickSubmit 0 reviewForm emptyDoc))) emptyDoc eq_refl).
  vm_compute in H. discriminate.
Qed.

(** * Auto refresh *)

Lemma blocked_not_allowed (v : View) :
  blocked v -> Enhanced.refreshAllowed v = false.
Proof.
  unfold blocked, Enhanced.refreshAllowed.
  intros [M | [tag [A I]]].
  - destruct (modalsShown v); [lia | reflexivity].
  - rewrite A. apply andb_false_iff. right.
    simpl in I. destruct I as [<- | [<- | [<- | []]]]; reflexivity.
Qed.


Lemma older_blocked_not_allowed (v : View) :
  olderBlocked v -> Basic.refreshAllowed v = false.
Proof.
  unfold olderBlocked, Basic.refreshAllowed.
  intros [M | [tag [A I]]].
  - destruct (modalsShown v); [lia | reflexivity].
  - rewrite A. apply andb_false_iff. right.
    simpl in I. destruct I as [<- | [<- | []]]; reflexivity.
Qed.









(** * Further properties of the file intake gate *)

(** X1.  The selection of the input survives a call of [validateCSVFile]
    exactly when the result is [OK], and the result is [OK] exactly when the
    first staged file has a lower-case name ending in ".csv" and a size within
    the limit; after any rejection the input is empty. *)
Theorem X1_selection_kept_exactly_when_accepted :
  forall (p : Enhanced.Page) (q : Basic.Page),
    (files (Enhanced.csvFile (fst (Enhanced.validateCSVFile p)))
     = match snd (Enhanced.validateCSVFile p) with
       | BAD_EXTENSION | TOO_LARGE => []
       | _ => files (Enhanced.csvFile p)
       end
     /\ (snd (Enhanced.validateCSVFile p) = OK
         <-> exists f r, files (Enhanced.csvFile p) = f :: r
                         /\ endsWith (toLowerCase (name f)) ".csv" = true
                         /\ (size f <= 104857600)%N))
    /\ (files (Basic.csvFile (fst (Basic.validateCSVFile q)))
        = match snd (Basic.validateCSVFile q) with
          | BAD_EXTENSION | TOO_LARGE => []
          | _ => files (Basic.csvFile q)
          end
        /\ (snd (Basic.validateCSVFile q) = OK
            <-> exists f r, files (Basic.csvFile q) = f :: r
                            /\ endsWith (toLowerCase (name f)) ".csv" = true
                            /\ (size f <= 52428800)%N)).
Proof.
  intros p q. split.
  - destruct (files (Enhanced.csvFile p)) as [| f r] eqn:F.
    { unfold Enhanced.validateCSVFile. rewrite F. simpl. split; [exact F|].
      split; [discriminate | intros [f [r [H _]]]; discriminate]. }
    destruct (endsWith (toLowerCase (name f)) ".csv") eqn:E.
    + destruct (N.le_gt_cases (size f) 104857600) as [L | L].
      * rewrite (enhanced_accept f r p F E L). simpl. split; [exact F|].
        split; [intros _; exists f, r; auto | reflexivity].
      * rewrite (enhanced_too_large f r p F E L). simpl. split; [reflexivity|].
        split; [discriminate|]. intros [g [r' [H [_ H']]]].
        injection H as <- <-. lia.
    + rewrite (enhanced_bad_extension f r p F E). simpl. split; [reflexivity|].
      split; [discriminate|]. intros [g [r' [H [H' _]]]].
      injection H as <- <-. congruence.
  - destruct (files (Basic.csvFile q)) as [| f r] eqn:F.
    { unfold Basic.validateCSVFile. rewrite F. simpl. split; [exact F|].
      split; [discriminate | intros [f [r [H _]]]; discriminate]. }
    destruct (endsWith (toLowerCase (name f)) ".csv") eqn:E.
    + destruct (N.le_gt_cases (size f) 52428800) as [L | L].
      * rewrite (basic_accept f r q F E L). simpl. split; [exact F|].
        split; [intros _; exists f, r; auto | reflexivity].
      * rewrite (basic_too_large f r q F E L). simpl. split; [reflexivity|].
        split; [discriminate|]. intros [g [r' [H [_ H']]]].
        injection H as <- <-. lia.
    + rewrite (basic_bad_extension f r q F E). simpl. split; [reflexivity|].
      split; [discriminate|]. intros [g [r' [H [H' _]]]].
      injection H as <- <-. congruence.
Qed.

(** ** Which names pass the extension test *)

Lemma substring_all (s : string) : substring 0 (String.length s) s = s.
Proof.
  induction s as [| a s IH]; simpl; [reflexivity | now rewrite IH].
Qed.

Lemma substring_split (n : nat) : forall (s : string) (m : nat),
  n + m = String.length s -> s = substring 0 n s ++ substring n m s.
Proof.
  induction n as [| n IH]; intros s m H.
  - simpl in H. subst m. rewrite substring_all. destruct s; reflexivity.
  - destruct s as [| a s]; [discriminate|]. simpl in H. injection H as H.
    simpl. f_equal. apply IH. exact H.
Qed.

Lemma length_app_string (a b : string) :
  String.length (a ++ b) = String.length a + String.length b.
Proof.
  induction a as [| c a IH]; simpl; [reflexivity | now rewrite IH].
Qed.

Lemma substring_after_prefix (pre suf : string) :
  substring (String.length pre) (String.length suf) (pre ++ suf) = suf.
Proof.
  induction pre as [| c pre IH]; simpl; [apply substring_all | exact IH].
Qed.

Lemma endsWith_iff (s suf : string) :
  endsWith s suf = true <-> exists pre, s = pre ++ suf.
Proof.
  unfold endsWith. split.
  - destruct (Nat.leb_spec (String.length suf) (String.length s)) as [L | L]; [|discriminate].
    intro H. apply String.eqb_eq in H.
    exists (substring 0 (String.length s - String.length suf) s).
    pose proof (substring_split (String.length s - String.length suf) s
                  (String.length suf)) as S.
    rewrite H in S. apply S. lia.
  - intros [pre ->]. rewrite length_app_string.
    destruct (Nat.leb_spec (String.length suf) (String.length pre + String.length suf))
      as [L | L]; [|lia].
    replace (String.length pre + String.length suf - String.length suf)
      with (String.length pre) by lia.
    rewrite substring_after_prefix. apply String.eqb_refl.
Qed.

Lemma toLowerCase_app (a b : string) :
  toLowerCase (a ++ b) = toLowerCase a ++ toLowerCase b.
Proof.
  induction a as [| c a IH]; simpl; [reflexivity | now rewrite IH].
Qed.

Lemma toLowerCase_app_inv (u : string) : forall (n v : string),
  toLowerCase n = u ++ v ->
  exists n1 n2, n = n1 ++ n2 /\ toLowerCase n1 = u /\ toLowerCase n2 = v.
Proof.
  induction u as [| c u IH]; intros n v H.
  - exists EmptyString, n. auto.
  - destruct n as [| a n]; [discriminate|]. simpl in H. injection H as Hc H.
    destruct (IH n v H) as [n1 [n2 [-> [H1 H2]]]].
    exists (String a n1), n2. simpl. rewrite Hc, H1. auto.
Qed.

Lemma lower_is_dot (c : ascii) : lower_ascii c = "."%char -> c = "."%char.
Proof.
  destruct c as [[] [] [] [] [] [] [] []]; vm_compute; intro H;
    first [reflexivity | discriminate].
Qed.

Lemma lower_is_c (c : ascii) : lower_ascii c = "c"%char -> c = "c"%char \/ c = "C"%char.
Proof.
  destruct c as [[] [] [] [] [] [] [] []]; vm_compute; intro H;
    first [now left | now right | discriminate].
Qed.

Lemma lower_is_s (c : ascii) : lower_ascii c = "s"%char -> c = "s"%char \/ c = "S"%char.
Proof.
  destruct c as [[] [] [] [] [] [] [] []]; vm_compute; intro H;
    first [now left | now right | discriminate].
Qed.

Lemma lower_is_v (c : ascii) : lower_ascii c = "v"%char -> c = "v"%char \/ c = "V"%char.
Proof.
  destruct c as [[] [] [] [] [] [] [] []]; vm_compute; intro H;
    first [now left | now right | discriminate].
Qed.

(** X2.  The extension test of [validateCSVFile] and of [handleDrop] accepts
    exactly the names that end in a dot followed by the letters c, s, v, each
    in either case; the part before the dot may be empty. *)
Theorem X2_names_passing_the_extension_test :
  forall n : string,
    endsWith (toLowerCase n) ".csv" = true
    <-> exists (stem : string) (c s v : ascii),
          n = stem ++ String "." (String c (String s (String v EmptyString)))
          /\ (c = "c"%char \/ c = "C"%char)
          /\ (s = "s"%char \/ s = "S"%char)
          /\ (v = "v"%char \/ v = "V"%char).
Proof.
  intro n. rewrite endsWith_iff. split.
  - intros [pre H]. apply toLowerCase_app_inv in H.
    destruct H as [stem [ext [-> [_ H]]]].
    destruct ext as [| d [| c [| s [| v [| x ext]]]]]; try discriminate.
    simpl in H. injection H as Hd Hc Hs Hv.
    apply lower_is_dot in Hd. subst d.
    exists stem, c, s, v. split; [reflexivity|].
    split; [now apply lower_is_c | split; [now apply lower_is_s | now apply lower_is_v]].
  - intros [stem [c [s [v [-> [Hc [Hs Hv]]]]]]].
    exists (toLowerCase stem). rewrite toLowerCase_app. f_equal.
    destruct Hc as [-> | ->], Hs as [-> | ->], Hv as [-> | ->]; reflexivity.
Qed.

(** * Debounced functions *)








(** * Loading state *)








(** * Search forms *)

Lemma trimStart_blank (v : string) :
  Forall (fun c => is_space c = true) (list_ascii_of_string v) -> trimStart v = EmptyString.
Proof.
  induction v as [| c v IH]; intro H; [reflexivity|].
  simpl in H. inversion H as [| ? ? Hc Hv]; subst. simpl. rewrite Hc. now apply IH.
Qed.

Lemma trim_blank (v : string) :
  Forall (fun c => is_space c = true) (list_ascii_of_string v) -> trim v = EmptyString.
Proof.
  intro H. unfold trim. rewrite (trimStart_blank v H). reflexivity.
Qed.

(** X7.  On a search form whose query has fewer than two characters once
    trimmed, a [submit] event is cancelled and the warning is shown, and the
    second listener still puts the enabled first submit button into the
    loading state: nothing was sent, yet the button is left disabled, and
    activating it again does nothing. *)
Theorem X7_short_search_is_cancelled_but_locks_the_button :
  forall (f : Enhanced.Form) (v : string) (b : Enhanced.Control)
         (others : list Enhanced.Control) (d d' : Doc),
    includes (Enhanced.action f) "search" = true ->
    Enhanced.queryInput f = Some v ->
    String.length (trim v) < 2 ->
    Enhanced.submitButtons f = b :: others ->
    Enhanced.disabled b = false ->
    let f1 := {| Enhanced.action := Enhanced.action f;
                 Enhanced.queryInput := Enhanced.queryInput f;
                 Enhanced.submitButtons := Enhanced.setLoading b true :: others |} in
    Enhanced.dispatchSubmit f d
    = (f1, Enhanced.showAlert "Please enter at least 2 characters to search." "warning" 5000 d,
       false)
    /\ Enhanced.locked f1 = true
    /\ Enhanced.clickSubmit 0 f1 d' = (f1, d', false).
Proof.
  intros f v b others d d' Hs Hq Hl Hb Hd f1.
  split; [|split].
  - unfold Enhanced.dispatchSubmit, Enhanced.searchSubmitListener.
    rewrite Hs, Hq. destruct (Nat.ltb_spec (String.length (trim v)) 2) as [Q | Q]; [|lia].
    unfold Enhanced.loadingSubmitListener. rewrite Hb, Hd. reflexivity.
  - apply setLoading_disables.
  - unfold Enhanced.clickSubmit.
    change (nth_error (Enhanced.submitButtons f1) 0) with (Some (Enhanced.setLoading b true)).
    cbv beta iota. rewrite setLoading_disables. reflexivity.
Qed.

Lemma X7_short_search_witness :
  snd (Enhanced.dispatchSubmit
         {| Enhanced.action := "/search"; Enhanced.queryInput := Some " a ";
            Enhanced.submitButtons := [uploadButton] |} emptyDoc) = false.
Proof.
  exact (f_equal snd (proj1 (X7_short_search_is_cancelled_but_locks_the_button
           {| Enhanced.action := "/search"; Enhanced.queryInput := Some " a ";
              Enhanced.submitButtons := [uploadButton] |}
           " a " uploadButton [] emptyDoc emptyDoc
           eq_refl eq_refl ltac:(vm_compute; lia) eq_refl eq_refl))).
Defined.

(** X8.  On a search form, a query made of white space only, of any length:
    a [submit] event is cancelled by the listener, which shows the warning.
    The Enter key in the query field takes another way: its listener calls
    [form.submit()], which fires no [submit] event, and the form is sent with
    the blank query, unchecked and without a warning. *)
Theorem X8_blank_search_is_cancelled_on_submit_but_sent_on_enter :
  forall (f : Enhanced.Form) (v : string) (d : Doc),
    includes (Enhanced.action f) "search" = true ->
    Enhanced.queryInput f = Some v ->
    Forall (fun c => is_space c = true) (list_ascii_of_string v) ->
    (snd (Enhanced.dispatchSubmit f d) = false
     /\ snd (fst (Enhanced.dispatchSubmit f d))
        = Enhanced.showAlert "Please enter at least 2 characters to search." "warning" 5000 d)
    /\ Enhanced.queryKeydownListener "Enter" f d = (f, d, true).
Proof.
  intros f v d Hs Hq Hv. split; [|reflexivity].
  unfold Enhanced.dispatchSubmit, Enhanced.searchSubmitListener.
  rewrite Hs, Hq, (trim_blank v Hv). simpl. split; reflexivity.
Qed.

Lemma X8_blank_search_witness :
  let f := {| Enhanced.action := "/search"; Enhanced.queryInput := Some "     ";
              Enhanced.submitButtons := [] |} in
  snd (Enhanced.dispatchSubmit f emptyDoc) = false
  /\ snd (Enhanced.queryKeydownListener "Enter" f emptyDoc) = true.
Proof.
  cbv zeta.
  pose proof (X8_blank_search_is_cancelled_on_submit_but_sent_on_enter
                {| Enhanced.action := "/search"; Enhanced.queryInput := Some "     ";
                   Enhanced.submitButtons := [] |} "     " emptyDoc eq_refl eq_refl) as H.
  assert (B : Forall (fun c => is_space c = true) (list_ascii_of_string "     "))
    by (simpl; repeat constructor).
  split.
  - exact (proj1 (proj1 (H B))).
  - exact (f_equal snd (proj2 (H B))).
Defined.

(** * Escaping *)

Lemma list_ascii_app (a b : string) :
  list_ascii_of_string (a ++ b) = (list_ascii_of_string a ++ list_ascii_of_string b)%list.
Proof.
  induction a as [| c a IH]; simpl; [reflexivity | now rewrite IH].
Qed.

Lemma escapeChar_has_no_markup (c : ascii) :
  existsb markupChar (list_ascii_of_string (Basic.escapeChar c)) = false.
Proof.
  unfold Basic.escapeChar.
  destruct (Ascii.eqb c "&") eqn:E1; [reflexivity|].
  destruct (Ascii.eqb c "<") eqn:E2; [reflexivity|].
  destruct (Ascii.eqb c ">") eqn:E3; [reflexivity|].
  destruct (Ascii.eqb c "034") eqn:E4; [reflexivity|].
  destruct (Ascii.eqb c "'") eqn:E5; [reflexivity|].
  simpl. unfold markupChar. rewrite E2, E3, E4, E5. reflexivity.
Qed.

(** X9.  The text returned by [escapeHtml] contains no angle bracket and no
    quote of either kind, whatever the input. *)
Theorem X9_escapeHtml_leaves_no_markup_character :
  forall text : string,
    existsb markupChar (list_ascii_of_string (Basic.escapeHtml text)) = false.
Proof.
  induction text as [| c r IH]; [reflexivity|].
  simpl. rewrite list_ascii_app, existsb_app, escapeChar_has_no_markup, IH. reflexivity.
Qed.

Lemma escapeChar_not_empty (c : ascii) (r : string) :
  Basic.escapeChar c ++ r <> EmptyString.
Proof.
  unfold Basic.escapeChar.
  repeat match goal with
         | |- context [if ?b then _ else _] => destruct b
         end; discriminate.
Qed.

(** X10.  [escapeHtml] loses nothing: two texts with the same escaped form are
    the same text. *)
Theorem X10_escapeHtml_is_injective :
  forall a b : string, Basic.escapeHtml a = Basic.escapeHtml b -> a = b.
Proof.
  induction a as [| c1 r1 IH]; intros [| c2 r2] H.
  - reflexivity.
  - simpl in H. symmetry in H. exfalso. exact (escapeChar_not_empty _ _ H).
  - simpl in H. exfalso. exact (escapeChar_not_empty _ _ H).
  - simpl in H. unfold Basic.escapeChar in H.
    destruct (Ascii.eqb_spec c1 "&"); [subst c1|];
    [| destruct (Ascii.eqb_spec c1 "<"); [subst c1|];
       [| destruct (Ascii.eqb_spec c1 ">"); [subst c1|];
          [| destruct (Ascii.eqb_spec c1 "034"); [subst c1|];
             [| destruct (Ascii.eqb_spec c1 "'"); [subst c1|]]]]];
    (destruct (Ascii.eqb_spec c2 "&"); [subst c2|];
     [| destruct (Ascii.eqb_spec c2 "<"); [subst c2|];
        [| destruct (Ascii.eqb_spec c2 ">"); [subst c2|];
           [| destruct (Ascii.eqb_spec c2 "034"); [subst c2|];
              [| destruct (Ascii.eqb_spec c2 "'"); [subst c2|]]]]]);
    simpl in H;
    first [ discriminate H
          | injection H as H; f_equal; now apply IH
          | injection H as Hc H; subst; first [ contradiction | f_equal; now apply IH ] ].
Qed.

Lemma X10_escapeHtml_witness :
  "a<b" = "a<b".
Proof.
  exact (X10_escapeHtml_is_injective "a<b" "a<b" eq_refl).
Defined.

(** * Truncation *)

Lemma length_substring_prefix (k : nat) : forall s : string,
  k <= String.length s -> String.length (substring 0 k s) = k.
Proof.
  induction k as [| k IH]; intros s H; [destruct s; reflexivity|].
  destruct s as [| a s]; [simpl in H; lia|].
  simpl. f_equal. apply IH. simpl in H. lia.
Qed.

Lemma substring_of_prefix (k : nat) : forall (m : nat) (s : string),
  k <= m -> substring 0 k (substring 0 m s) = substring 0 k s.
Proof.
  induction k as [| k IH]; intros m s H.
  - destruct (substring 0 m s), s; reflexivity.
  - destruct m as [| m]; [lia|]. destruct s as [| a s]; [reflexivity|].
    simpl. f_equal. apply IH. lia.
Qed.

Lemma get_of_prefix (i : nat) : forall (m : nat) (s : string),
  i < m -> String.get i (substring 0 m s) = String.get i s.
Proof.
  induction i as [| i IH]; intros m s H.
  - destruct m as [| m]; [lia|]. destruct s; reflexivity.
  - destruct m as [| m]; [lia|]. destruct s as [| a s]; [reflexivity|].
    simpl. apply IH. lia.
Qed.

Lemma lastIndexOf_found (c : ascii) (s : string) : forall i : nat,
  lastIndexOf c s = Some i -> String.get i s = Some c /\ i < String.length s.
Proof.
  induction s as [| a s IH]; intros i H; [discriminate|].
  simpl in H. destruct (lastIndexOf c s) as [j|].
  - injection H as <-. destruct (IH j eq_refl) as [G L]. simpl. split; [exact G | lia].
  - destruct (Ascii.eqb_spec a c) as [-> | _]; [|discriminate].
    injection H as <-. simpl. split; [reflexivity | lia].
Qed.

Lemma exceedsFourFifths_iff (k m : nat) :
  Enhanced.exceedsFourFifths k m = true <-> 4 * m < 5 * k.
Proof.
  unfold Enhanced.exceedsFourFifths, Qgtb, Qle_bool, Qmult, inject_Z. simpl.
  rewrite negb_true_iff, Z.leb_gt. lia.
Qed.

(** X11.  The enhanced [truncateText] returns a text of at most [maxLength]
    characters unchanged.  A longer text becomes a prefix of itself of [k]
    characters followed by the suffix, where [k] is [maxLength], or the
    position of a space of the text that lies beyond four fifths of
    [maxLength]; the result is never longer than [maxLength] plus the
    suffix. *)
Theorem X11_truncateText_cuts_at_the_limit_or_a_late_space :
  forall (text suffix : string) (maxLength : nat),
    (String.length text <= maxLength ->
     Enhanced.truncateText text maxLength suffix = text)
    /\ (maxLength < String.length text ->
        exists k : nat,
          Enhanced.truncateText text maxLength suffix = substring 0 k text ++ suffix
          /\ String.length (Enhanced.truncateText text maxLength suffix)
             = k + String.length suffix
          /\ k <= maxLength
          /\ (k = maxLength
              \/ (0 < k /\ 4 * maxLength < 5 * k /\ String.get k text = Some " "%char))).
Proof.
  intros text suffix maxLength. unfold Enhanced.truncateText. split.
  - intro H. destruct (Nat.leb_spec (String.length text) maxLength); [reflexivity | lia].
  - intro H. destruct (Nat.leb_spec (String.length text) maxLength) as [Q | _]; [lia|].
    assert (Full : exists k : nat,
               substring 0 maxLength text ++ suffix = substring 0 k text ++ suffix
               /\ String.length (substring 0 maxLength text ++ suffix)
                  = k + String.length suffix
               /\ k <= maxLength
               /\ (k = maxLength
                   \/ (0 < k /\ 4 * maxLength < 5 * k
                       /\ String.get k text = Some " "%char))).
    { exists maxLength. rewrite length_app_string, length_substring_prefix by lia.
      repeat split; auto. }
    destruct (lastIndexOf " " (substring 0 maxLength text)) as [i|] eqn:E; [|exact Full].
    destruct (0 <? i) eqn:P; [|exact Full].
    destruct (Enhanced.exceedsFourFifths i maxLength) eqn:F; [|exact Full].
    simpl. apply lastIndexOf_found in E. destruct E as [G L].
    rewrite length_substring_prefix in L by lia.
    exists i. rewrite substring_of_prefix by lia.
    rewrite length_app_string, length_substring_prefix by lia.
    repeat split; try lia. right.
    apply Nat.ltb_lt in P. apply exceedsFourFifths_iff in F.
    rewrite get_of_prefix in G by lia. auto.
Qed.

(** X12.  The older [truncateText] keeps a text of at most [maxLength]
    characters and turns a longer one into its first [maxLength] characters
    followed by three dots; a text one or two characters over the limit
    comes out longer than it went in. *)
Theorem X12_older_truncateText_adds_three_dots :
  forall (text : string) (maxLength : nat),
    (String.length text <= maxLength -> Basic.truncateText text maxLength = text)
    /\ (maxLength < String.length text ->
        Basic.truncateText text maxLength = substring 0 maxLength text ++ "..."
        /\ String.length (Basic.truncateText text maxLength) = maxLength + 3
        /\ (String.length text < maxLength + 3 ->
            String.length text < String.length (Basic.truncateText text maxLength))).
Proof.
  intros text maxLength. unfold Basic.truncateText. split.
  - intro H. destruct (Nat.leb_spec (String.length text) maxLength); [reflexivity | lia].
  - intro H. destruct (Nat.leb_spec (String.length text) maxLength) as [Q | _]; [lia|].
    rewrite length_app_string, length_substring_prefix by lia. simpl.
    repeat split; lia.
Qed.

(** * Expiry of notifications *)

Lemma nextTimer_earliest (t : N) (ts : list Timer) (tm : Timer) (rest : list Timer) :
  nextTimer t ts = Some (tm, rest) -> Forall (fun x => (due tm <= due x)%N) ts.
Proof.
  unfold nextTimer. destruct (minDue ts) as [m|] eqn:E; [|discriminate].
  destruct (m <=? t)%N; [|discriminate]. intro H.
  apply takeDue_splits in H. destruct H as [-> _].
  exact (minDue_lower_bound ts _ E).
Qed.

(** As [run_invariant], for invariants that need to know that the callback
    that runs is the earliest one pending. *)
Section RunEarliest.
Variable fire : Callback -> Doc -> Doc.
Variable t : N.
Variable P : Doc -> Prop.

Hypothesis P_idle : forall d,
  P d -> Forall (fun x => (t < due x)%N) (timers d) -> P (idleUntil t d).
Hypothesis P_step : forall d tm l1 l2,
  P d -> timers d = (l1 ++ tm :: l2)%list -> (due tm <= t)%N ->
  Forall (fun x => (due tm <= due x)%N) (timers d) ->
  P (fire (action tm) (beginCallback tm (l1 ++ l2) d)).

Lemma run_invariant_earliest (fuel : nat) : forall d, P d -> P (run fire fuel t d).
Proof.
  induction fuel as [| k IH]; intros d H; simpl; [assumption|].
  destruct (nextTimer t (timers d)) as [[tm rest]|] eqn:E.
  - pose proof (nextTimer_earliest _ _ _ _ E) as M.
    apply nextTimer_some in E. destruct E as [L [l1 [l2 [H1 H2]]]]. subst rest.
    apply IH. apply P_step; assumption.
  - apply P_idle; [assumption | now apply nextTimer_none].
Qed.
End RunEarliest.

Lemma enhanced_fire_keeps_timers (cb : Callback) (d : Doc) (x : Timer) :
  In x (timers d) -> In x (timers (Enhanced.fire cb d)).
Proof.
  intro H. destruct cb as [id | id | id]; simpl; try exact H.
  destruct (attached id d); simpl; [apply in_or_app; now left | exact H].
Qed.

Lemma enhanced_fire_adds_removals_only (cb : Callback) (d : Doc) (x : Timer) :
  In x (timers (Enhanced.fire cb d)) ->
  In x (timers d)
  \/ (cb = AutoDismiss (target cb) /\ attached (target cb) d = true
      /\ x = mkTimer (now d + 300) (RemoveEl (target cb))).
Proof.
  destruct cb as [id | id | id]; simpl; try (intro H; now left).
  destruct (attached id d) eqn:A; simpl; [|intro H; now left].
  intro H. apply in_app_or in H. destruct H as [H | [H | []]]; [now left | right].
  subst x. auto.
Qed.

Lemma attached_before_fire (id : nat) (cb : Callback) (d : Doc) :
  attached id (Enhanced.fire cb d) = true -> attached id d = true.
Proof.
  intro H. destruct (attached id d) eqn:A; [reflexivity|].
  rewrite (enhanced_fire_keeps_detached id cb d A) in H. discriminate.
Qed.

Section Expiry.
Variables (t created u : N) (id : nat).

Lemma expiring_idle (d : Doc) :
  (created + u <= t)%N ->
  expiring created u id d -> Forall (fun x => (t < due x)%N) (timers d) ->
  expiring created u id (idleUntil t d).
Proof.
  intros late [Hd Ha] D. split; [exact Hd|].
  intro At. change (attached id (idleUntil t d)) with (attached id d) in At.
  destruct (Ha At) as [[[x [Hx Ax]] _] | B]; [|now right].
  exfalso. rewrite Forall_forall in D. specialize (D x Hx).
  rewrite (Hd x Hx Ax) in D. lia.
Qed.

Lemma expiring_step (d : Doc) (tm : Timer) (l1 l2 : list Timer) :
  expiring created u id d -> timers d = (l1 ++ tm :: l2)%list -> (due tm <= t)%N ->
  Forall (fun x => (due tm <= due x)%N) (timers d) ->
  expiring created u id (Enhanced.fire (action tm) (beginCallback tm (l1 ++ l2) d)).
Proof.
  intros [Hd Ha] E L M.
  set (d1 := beginCallback tm (l1 ++ l2) d).
  assert (Sub : forall x, In x (timers d1) -> In x (timers d)).
  { intros x Hx. rewrite E. now apply timer_of_rest. }
  assert (Itm : In tm (timers d)) by (rewrite E; apply in_elt).
  split.
  - intros x Hx Ax. apply enhanced_fire_adds_removals_only in Hx.
    destruct Hx as [Hx | [_ [_ ->]]]; [|discriminate].
    apply Hd; [now apply Sub | exact Ax].
  - intro At. pose proof (attached_before_fire _ _ _ At) as At1.
    change (attached id d1) with (attached id d) in At1.
    destruct (Ha At1) as [[[x [Hx Ax]] Hn] | [y [Hy [Ay Dy]]]].
    + destruct (action tm) as [k | k | k] eqn:A.
      * left. split.
        -- exists x. split; [|exact Ax]. apply enhanced_fire_keeps_timers.
           apply (timer_in_rest x tm); [now rewrite <- E | congruence].
        -- rewrite enhanced_fire_now. simpl. rewrite Forall_forall in M.
           specialize (M x Hx). rewrite (Hd x Hx Ax) in M. lia.
      * left. split.
        -- exists x. split; [|exact Ax]. apply enhanced_fire_keeps_timers.
           apply (timer_in_rest x tm); [now rewrite <- E | congruence].
        -- rewrite enhanced_fire_now. simpl. rewrite Forall_forall in M.
           specialize (M x Hx). rewrite (Hd x Hx Ax) in M. lia.
      * destruct (Nat.eq_dec k id) as [-> | Nk].
        -- right. simpl. change (attached id d1) with (attached id d). rewrite At1.
           exists (mkTimer (now d1 + 300) (RemoveEl id)). split; [|split].
           ++ simpl. apply in_or_app. right. now left.
           ++ reflexivity.
           ++ simpl. rewrite (Hd tm Itm A). lia.
        -- left. split.
           ++ exists x. split; [|exact Ax].
              rewrite <- A. apply enhanced_fire_keeps_timers.
              apply (timer_in_rest x tm); [now rewrite <- E | congruence].
           ++ rewrite <- A, enhanced_fire_now. simpl. rewrite Forall_forall in M.
              specialize (M x Hx). rewrite (Hd x Hx Ax) in M. lia.
    + right. exists y. split; [|split; assumption].
      apply enhanced_fire_keeps_timers.
      apply (timer_in_rest y tm); [now rewrite <- E|].
      intro Q. rewrite Ay in Q. rewrite <- Q in At. simpl in At.
      change (removeEl id d1) with (removeEl id d1) in At.
      rewrite attached_removeEl_same in At. discriminate.
Qed.

Lemma expiring_done (d : Doc) :
  expiring created u id d -> (created + u + 300 <= t)%N ->
  Forall (fun tm => (t < due tm)%N) (timers d) ->
  attached id d = false.
Proof.
  intros [Hd Ha] L D. destruct (attached id d) eqn:A; [|reflexivity].
  rewrite Forall_forall in D.
  destruct (Ha eq_refl) as [[[x [Hx Ax]] _] | [y [Hy [_ Dy]]]].
  - specialize (D x Hx). rewrite (Hd x Hx Ax) in D. lia.
  - specialize (D y Hy). lia.
Qed.
End Expiry.

Lemma showAlert_expiring (m ty : string) (u : N) (d : Doc) :
  wellFormed d -> expiring (now d) u (fresh d) (Enhanced.showAlert m ty u d).
Proof.
  intros [Wa Wt]. rewrite showAlert_spec. split; simpl.
  - intros x Hx Ax. repeat (apply in_app_or in Hx; destruct Hx as [Hx | Hx]).
    + rewrite Forall_forall in Wt. specialize (Wt x Hx). rewrite Ax in Wt. simpl in Wt. lia.
    + apply in_map_iff in Hx. destruct Hx as [a [<- _]]. discriminate.
    + destruct Hx as [<- | []]. discriminate.
    + destruct Hx as [<- | []]. reflexivity.
  - intros _. left. split; [|lia].
    exists (mkTimer (now d + u) (AutoDismiss (fresh d))). split; [|reflexivity].
    apply in_or_app. right. now left.
Qed.

(** An alert with a removal pending and due is detached by the end of the
    run. *)
Lemma pending_removal_detaches (t : N) (id : nat) (d : Doc) :
  pendingBy t (RemoveEl id) (timers d) -> attached id (Enhanced.advanceTo t d) = false.
Proof.
  intro H.
  assert (I : attached id (Enhanced.advanceTo t d) = true ->
              pendingBy t (RemoveEl id) (timers (Enhanced.advanceTo t d))).
  { unfold Enhanced.advanceTo.
    apply (run_invariant Enhanced.fire t
             (fun x => attached id x = true -> pendingBy t (RemoveEl id) (timers x))).
    - intros x Hx. exact Hx.
    - intros x tm l1 l2 Hx E L At.
      pose proof (attached_before_fire _ _ _ At) as At1.
      change (attached id (beginCallback tm (l1 ++ l2) x)) with (attached id x) in At1.
      destruct (Hx At1) as [y [Hy [Ay Dy]]].
      exists y. split; [|split; assumption].
      apply enhanced_fire_keeps_timers. simpl.
      apply (timer_in_rest y tm); [now rewrite <- E|].
      intro Q. rewrite Ay in Q. rewrite <- Q in At. simpl in At.
      rewrite attached_removeEl_same in At. discriminate.
    - intros _. exact H. }
  destruct (attached id (Enhanced.advanceTo t d)) eqn:A; [|reflexivity].
  exfalso. exact (pendingBy_drained t _ _ (enhanced_advanceTo_drains t d) (I eq_refl)).
Qed.

Lemma nothing_attached (d : Doc) :
  (forall id, attached id d = false) -> alerts d = [].
Proof.
  intro H. destruct (alerts d) as [| e l] eqn:E; [reflexivity|].
  specialize (H (elId e)). unfold attached in H. rewrite E in H. simpl in H.
  rewrite Nat.eqb_refl in H. discriminate.
Qed.

Lemma attached_elements (id : nat) (d : Doc) :
  attached id d = true -> exists e, In e (alerts d) /\ elId e = id.
Proof.
  unfold attached. intro H. apply existsb_exists in H.
  destruct H as [e [He Hid]]. exists e. split; [exact He | now apply Nat.eqb_eq].
Qed.

Lemma basic_expiry_invariant (t : N) (id : nat) (d : Doc) :
  (attached id d = true -> pendingBy t (AutoDismiss id) (timers d)) ->
  attached id (Basic.advanceTo t d) = false.
Proof.
  intro H.
  assert (I : attached id (Basic.advanceTo t d) = true ->
              pendingBy t (AutoDismiss id) (timers (Basic.advanceTo t d))).
  { unfold Basic.advanceTo.
    apply (run_invariant Basic.fire t
             (fun x => attached id x = true -> pendingBy t (AutoDismiss id) (timers x))).
    - intros x Hx. exact Hx.
    - intros x tm l1 l2 Hx E L At.
      assert (At1 : attached id x = true).
      { destruct (attached id x) eqn:A; [reflexivity|].
        rewrite (basic_fire_keeps_detached id (action tm) (beginCallback tm (l1 ++ l2) x) A)
          in At. discriminate. }
      destruct (Hx At1) as [y [Hy [Ay Dy]]].
      assert (Ne : action y <> action tm).
      { intro Q. rewrite Ay in Q. rewrite <- Q in At. simpl in At.
        change (attached id (beginCallback tm (l1 ++ l2) x)) with (attached id x) in At.
        rewrite At1 in At. rewrite attached_removeEl_same in At. discriminate. }
      exists y. split; [|split; assumption].
      assert (Iy : In y (l1 ++ l2)) by (apply (timer_in_rest y tm); [now rewrite <- E | exact Ne]).
      destruct (action tm) as [k | k | k]; simpl; try exact Iy.
      destruct (attached k (beginCallback tm (l1 ++ l2) x)); exact Iy.
    - exact H. }
  destruct (attached id (Basic.advanceTo t d)) eqn:A; [|reflexivity].
  exfalso. exact (pendingBy_drained t _ _ (basic_advanceTo_drains t d) (I eq_refl)).
Qed.

(** X13.  Every notification goes away by itself.  In the enhanced revision,
    300 ms after the duration of a call of [showAlert] has passed, no auto
    alert is attached any more, neither the new one nor those it superseded;
    in the older revision that holds as soon as the duration has passed. *)
Theorem X13_notifications_expire :
  forall (d : Doc) (m ty : string) (u t : N),
    wellFormed d ->
    (now d + u <= t)%N ->
    alerts (Enhanced.advanceTo (t + 300) (Enhanced.showAlert m ty u d)) = []
    /\ alerts (Basic.advanceTo t (Basic.showAlert m ty u d)) = [].
Proof.
  intros d m ty u t W L. split.
  - apply nothing_attached. intro id.
    destruct (attached id (Enhanced.showAlert m ty u d)) eqn:A;
      [|now apply enhanced_run_keeps_detached].
    apply attached_elements in A. destruct A as [e [He Hid]].
    rewrite showAlert_spec in He. simpl in He. apply in_app_or in He.
    destruct He as [He | [<- | []]].
    + apply in_map_iff in He. destruct He as [a [<- Ia]]. rewrite faded_id in Hid.
      apply pending_removal_detaches. exists (removalOf d a).
      split; [|split; [now rewrite <- Hid | simpl; lia]].
      rewrite showAlert_spec. simpl.
      apply in_or_app. left. apply in_or_app. left. apply in_or_app. right.
      now apply in_map.
    + simpl in Hid. subst id.
      apply (expiring_done (t + 300) (now d) u (fresh d)).
      * unfold Enhanced.advanceTo. apply run_invariant_earliest.
        -- intros x Hx Dx. apply expiring_idle; [lia | exact Hx | exact Dx].
        -- intros x tm l1 l2. apply expiring_step.
        -- now apply showAlert_expiring.
      * lia.
      * apply enhanced_advanceTo_drains.
  - apply nothing_attached. intro id.
    apply basic_expiry_invariant. rewrite basic_showAlert_spec. simpl.
    unfold attached. simpl. rewrite orb_false_r. intro H. apply Nat.eqb_eq in H. subst id.
    exists (mkTimer (now d + u) (AutoDismiss (fresh d))).
    split; [apply in_or_app; right; now left | split; [reflexivity | simpl; lia]].
Qed.

Lemma X13_notifications_expire_witness :
  alerts (Enhanced.advanceTo (5000 + 300)
            (Enhanced.showAlert "Saved" "success" 5000 emptyDoc)) = [].
Proof.
  refine (proj1 (X13_notifications_expire emptyDoc "Saved" "success" 5000 5000 _ _)).
  - split; constructor.
  - vm_compute. discriminate.
Defined.

(** * At most one notification in the older revision *)

Lemma basic_fire_shrinks (cb : Callback) (d : Doc) :
  length (alerts (Basic.fire cb d)) <= length (alerts d).
Proof.
  destruct cb as [id | id | id]; simpl.
  - apply filter_length_le.
  - rewrite length_map. apply Nat.le_refl.
  - destruct (attached id d); simpl; [apply filter_length_le | apply Nat.le_refl].
Qed.

(** X14.  In the older revision at most one auto alert is attached at any
    time: whatever calls of [showAlert], waiting and closing follow each
    other on a page that starts with at most one, there is never a second
    one. *)
Theorem X14_older_revision_shows_at_most_one_alert :
  forall (ops : list Op) (d : Doc),
    length (alerts d) <= 1 ->
    length (alerts (fold_left olderApply ops d)) <= 1.
Proof.
  induction ops as [| o ops IH]; intros d H; [exact H|].
  cbn [fold_left]. apply IH. destruct o as [m ty u | t | id]; cbn [olderApply].
  - rewrite basic_showAlert_spec. simpl. apply Nat.le_refl.
  - unfold Basic.advanceTo.
    apply (run_invariant Basic.fire t (fun x => length (alerts x) <= 1)).
    + intros x Hx. exact Hx.
    + intros x tm l1 l2 Hx _ _.
      eapply Nat.le_trans; [apply basic_fire_shrinks | exact Hx].
    + exact H.
  - eapply Nat.le_trans; [apply filter_length_le | exact H].
Qed.

Lemma X14_at_most_one_witness :
  length (alerts (fold_left olderApply
                    [Show "a" "info" 5000; Show "b" "danger" 5000; Wait 100; Close 0;
                     Show "c" "success" 2000]
                    emptyDoc)) <= 1.
Proof.
  exact (X14_older_revision_shows_at_most_one_alert
           [Show "a" "info" 5000; Show "b" "danger" 5000; Wait 100; Close 0;
            Show "c" "success" 2000]
           emptyDoc (Nat.le_0_l 1)).
Defined.

(** * Search suggestions *)

Lemma hide_detaches (input : Enhanced.SearchInput) :
  oneDropdown input ->
  Enhanced.hideSearchSuggestions input
  = {| Enhanced.suggestionsDropdown := None; Enhanced.containerDropdowns := [];
       Enhanced.nextDropdown := Enhanced.nextDropdown input |}.
Proof.
  unfold oneDropdown, Enhanced.hideSearchSuggestions. intro H.
  destruct input as [[dd|] container next]; simpl in *; subst container.
  - simpl. rewrite Nat.eqb_refl. reflexivity.
  - reflexivity.
Qed.

(** X15.  The search input never has more than one suggestions dropdown:
    [showSearchSuggestions] detaches the one it remembers before it attaches a
    new one, so after any call the dropdowns attached are exactly the one
    remembered, and after [hideSearchSuggestions] none is left. *)
Theorem X15_at_most_one_suggestions_dropdown :
  forall (input : Enhanced.SearchInput) (query : string),
    oneDropdown input ->
    oneDropdown (Enhanced.showSearchSuggestions input query)
    /\ length (Enhanced.containerDropdowns (Enhanced.showSearchSuggestions input query)) <= 1
    /\ oneDropdown (Enhanced.hideSearchSuggestions input)
    /\ Enhanced.containerDropdowns
         (Enhanced.hideSearchSuggestions (Enhanced.showSearchSuggestions input query)) = [].
Proof.
  intros input query H.
  assert (S1 : oneDropdown (Enhanced.showSearchSuggestions input query)).
  { unfold Enhanced.showSearchSuggestions. rewrite (hide_detaches input H).
    destruct (filter _ Enhanced.suggestions); reflexivity. }
  split; [exact S1|]. split; [|split].
  - rewrite S1. destruct (Enhanced.suggestionsDropdown _); simpl; lia.
  - rewrite (hide_detaches input H). reflexivity.
  - rewrite (hide_detaches _ S1). reflexivity.
Qed.

Lemma X15_one_dropdown_witness :
  length (Enhanced.containerDropdowns
            (Enhanced.showSearchSuggestions
               (Enhanced.showSearchSuggestions (Enhanced.mkSearchInput None [] 0) "email")
               "issues")) <= 1.
Proof.
  refine (proj1 (proj2 (X15_at_most_one_suggestions_dropdown
            (Enhanced.showSearchSuggestions (Enhanced.mkSearchInput None [] 0) "email")
            "issues" _))).
  exact (proj1 (X15_at_most_one_suggestions_dropdown
                  (Enhanced.mkSearchInput None [] 0) "email" eq_refl)).
Defined.

Lemma lower_ascii_idempotent (c : ascii) : lower_ascii (lower_ascii c) = lower_ascii c.
Proof.
  destruct c as [[] [] [] [] [] [] [] []]; reflexivity.
Qed.

Lemma toLowerCase_idempotent (s : string) : toLowerCase (toLowerCase s) = toLowerCase s.
Proof.
  induction s as [| c s IH]; simpl; [reflexivity|].
  now rewrite lower_ascii_idempotent, IH.
Qed.

(** The suggestions of the script are written in lower case, so lowering
    them changes nothing in what the filter keeps. *)
Lemma filteredSuggestions_spec (query : string) :
  filter (fun s => includes (toLowerCase s) (toLowerCase query)) Enhanced.suggestions
  = filter (fun s => includes s (toLowerCase query)) Enhanced.suggestions.
Proof.
  apply filter_ext_in. intros s Hs. simpl in Hs.
  repeat (destruct Hs as [<- | Hs]; [reflexivity|]). destruct Hs.
Qed.

(** X16.  The suggestions shown do not depend on the letter case of the
    query.  With [matching] the suggestions that contain the lower-cased
    query, in the order of the script: when there is none, the call leaves
    the input without a dropdown, remembered or attached; when there is one,
    the call attaches exactly one new dropdown, which lists [matching] and is
    the one remembered. *)
Theorem X16_suggestions_match_the_query_in_any_case :
  forall (input : Enhanced.SearchInput) (query : string),
    oneDropdown input ->
    let matching := filter (fun s => includes s (toLowerCase query)) Enhanced.suggestions in
    let shown := Enhanced.showSearchSuggestions input query in
    let dd := {| Enhanced.ddId := Enhanced.nextDropdown input;
                 Enhanced.ddItems := matching |} in
    Enhanced.showSearchSuggestions input (toLowerCase query) = shown
    /\ (matching = [] ->
        Enhanced.suggestionsDropdown shown = None
        /\ Enhanced.containerDropdowns shown = [])
    /\ (matching <> [] ->
        Enhanced.suggestionsDropdown shown = Some dd
        /\ Enhanced.containerDropdowns shown = [dd])
    /\ (forall s, In s matching
                  <-> In s Enhanced.suggestions /\ includes s (toLowerCase query) = true).
Proof.
  intros input query H matching shown dd. subst shown dd.
  split; [|split; [|split]].
  - unfold Enhanced.showSearchSuggestions. rewrite toLowerCase_idempotent. reflexivity.
  - intro E. unfold Enhanced.showSearchSuggestions.
    rewrite filteredSuggestions_spec, (hide_detaches input H).
    fold matching. rewrite E. split; reflexivity.
  - intro E. unfold Enhanced.showSearchSuggestions.
    rewrite filteredSuggestions_spec, (hide_detaches input H).
    fold matching. destruct matching as [| x l]; [contradiction | split; reflexivity].
  - intro s. unfold matching. exact (filter_In _ s Enhanced.suggestions).
Qed.

Lemma X16_suggestions_witness :
  let input := Enhanced.mkSearchInput None [] 0 in
  (Enhanced.suggestionsDropdown (Enhanced.showSearchSuggestions input "EMAIL")
   = Some (Enhanced.mkDropdown 0 ["negative emails"; "high priority emails"])
   /\ Enhanced.containerDropdowns (Enhanced.showSearchSuggestions input "EMAIL")
      = [Enhanced.mkDropdown 0 ["negative emails"; "high priority emails"]])
  /\ (Enhanced.suggestionsDropdown (Enhanced.showSearchSuggestions input "invoice") = None
      /\ Enhanced.containerDropdowns (Enhanced.showSearchSuggestions input "invoice") = []).
Proof.
  cbv zeta. split.
  - refine (proj1 (proj2 (proj2 (X16_suggestions_match_the_query_in_any_case
                                   (Enhanced.mkSearchInput None [] 0) "EMAIL" eq_refl))) _).
    vm_compute. discriminate.
  - exact (proj1 (proj2 (X16_suggestions_match_the_query_in_any_case
                           (Enhanced.mkSearchInput None [] 0) "invoice" eq_refl)) eq_refl).
Defined.

(** * A dropped file that is too large *)

(** X17.  Dropping a file with a ".csv" name above 100 MB on the enhanced
    page rejects it (the input is emptied, the submit button disabled) and
    then announces it all the same: the size message is superseded in the same
    turn by "CSV file ready for upload!", which is the one notification left
    from 300 ms after the drop until it expires. *)
Theorem X17_oversized_dropped_csv_is_announced_as_ready :
  forall (f : File) (r : list File) (p : Enhanced.Page) (t : N),
    endsWith (toLowerCase (name f)) ".csv" = true ->
    (104857600 < size f)%N ->
    wellFormed (Enhanced.doc p) ->
    (now (Enhanced.doc p) + 300 <= t < now (Enhanced.doc p) + 5000)%N ->
    let p' := Enhanced.handleDrop (f :: r) p in
    files (Enhanced.csvFile p') = []
    /\ Enhanced.submitBtn p' = Enhanced.setIfPresent true (Enhanced.submitBtn p)
    /\ alerts (Enhanced.doc p')
       = (map faded (map faded (alerts (Enhanced.doc p)))
          ++ [mkAlert (fresh (Enhanced.doc p)) "danger"
                      "File size must be less than 100MB." "0";
              mkAlert (S (fresh (Enhanced.doc p))) "success"
                      "CSV file ready for upload!" "0"])%list
    /\ alerts (Enhanced.advanceTo t (Enhanced.doc p'))
       = [mkAlert (S (fresh (Enhanced.doc p))) "success" "CSV file ready for upload!" "1"].
Proof.
  intros f r p t E L W T p'.
  assert (V : Enhanced.validateCSVFile (Enhanced.setFiles (f :: r) p)
              = (Enhanced.reject "File size must be less than 100MB."
                   (Enhanced.setFiles (f :: r) p), TOO_LARGE)).
  { apply (enhanced_too_large f r); [reflexivity | exact E | exact L]. }
  assert (P : p' = Enhanced.setDoc
                     (Enhanced.showAlert "CSV file ready for upload!" "success" 5000
                        (Enhanced.showAlert "File size must be less than 100MB." "danger" 5000
                           (Enhanced.doc p)))
                     (Enhanced.reject "File size must be less than 100MB."
                        (Enhanced.setFiles (f :: r) p))).
  { subst p'. unfold Enhanced.handleDrop. rewrite E, V. reflexivity. }
  rewrite P. cbn [Enhanced.setDoc Enhanced.csvFile Enhanced.submitBtn Enhanced.doc
                  Enhanced.reject Enhanced.setFiles clearValue files].
  split; [reflexivity|]. split; [reflexivity|]. split.
  - rewrite !showAlert_spec. simpl. rewrite map_app, <- app_assoc. reflexivity.
  - pose proof (wellFormed_showAlert "File size must be less than 100MB." "danger" 5000
                  (Enhanced.doc p) W) as W1.
    rewrite (showAlert_settles _ _ 5000 t _ W1).
    + rewrite showAlert_spec. reflexivity.
    + rewrite showAlert_spec. simpl. exact T.
Qed.

Lemma X17_oversized_drop_witness :
  alerts (Enhanced.advanceTo 400 (Enhanced.doc (Enhanced.handleDrop [hugeCsv] uploadPage)))
  = [mkAlert 1 "success" "CSV file ready for upload!" "1"].
Proof.
  refine (proj2 (proj2 (proj2 (X17_oversized_dropped_csv_is_announced_as_ready
            hugeCsv [] uploadPage 400 eq_refl eq_refl _ _)))).
  - split; constructor.
  - split; [vm_compute; discriminate | vm_compute; reflexivity].
Defined.

(** * The current page *)











(** * What a drop stages *)



(** * Ticks that are all blocked *)

Lemma ticks_all_blocked (vs : list View) : forall t : N,
  Forall blocked vs -> Enhanced.ticks t vs = None.
Proof.
  induction vs as [| v vs IH]; intros t H; [reflexivity|].
  inversion H as [| ? ? Hv Hvs]; subst. simpl. unfold Enhanced.onTick.
  rewrite (blocked_not_allowed v Hv). now apply IH.
Qed.

Lemma older_ticks_all_blocked (vs : list View) : forall t : N,
  Forall olderBlocked vs -> Basic.ticks t vs = None.
Proof.
  induction vs as [| v vs IH]; intros t H; [reflexivity|].
  inversion H as [| ? ? Hv Hvs]; subst. simpl. unfold Basic.onTick.
  rewrite (older_blocked_not_allowed v Hv). now apply IH.
Qed.

(** X20.  As long as every tick finds a modal shown or the focus on one of
    the elements the callback looks for, the page is not reloaded at all,
    however many ticks pass and on whatever path. *)
Theorem X20_no_reload_while_every_tick_is_blocked :
  forall (path : string) (t : N) (vs ws : list View),
    Forall blocked vs ->
    Forall olderBlocked ws ->
    Enhanced.initializeAutoRefresh path t vs = None
    /\ Basic.initializeAutoRefresh path t ws = None.
Proof.
  intros path t vs ws Hv Hw.
  unfold Enhanced.initializeAutoRefresh, Basic.initializeAutoRefresh.
  rewrite (ticks_all_blocked vs _ Hv), (older_ticks_all_blocked ws _ Hw).
  split; [destruct (includes path "/approval") | destruct (_ && _)]; reflexivity.
Qed.

Lemma X20_no_reload_witness :
  Enhanced.initializeAutoRefresh "/approval" 0 [mkView 1 None; mkView 2 (Some "DIV")] = None.
Proof.
  refine (proj1 (X20_no_reload_while_every_tick_is_blocked "/approval" 0
                   [mkView 1 None; mkView 2 (Some "DIV")] [] _ _)).
  - repeat constructor.
  - constructor.
Defined.

(** * How long a notification of the older revision stays *)


